(** * Catena 5230 message decoder (format 0x50): embedding and properties

    Shallow embedding of
    [src/Decoder/catena-message-0x50-port1-decoder-nodered.js].

    - JavaScript numbers are IEEE 754 binary64 values.  They are modelled by
      the Standard Library's [spec_float] with the binary64 operations
      ([prec = 53], [emax = 1024], round to nearest even).
    - A number that the script only manipulates with integer operations
      (byte reads, shifts, masks, sums of a few bytes) is kept as a [jsint]:
      an exact integer or NaN.  All such integers are far below [2^53], so
      the double arithmetic on them is exact; they are injected into
      [spec_float] with [Z2SF] where the script mixes them with fractions.
    - [bytes[k]] past the end of the buffer is [undefined]: a byte read is an
      [option Z], [None] standing for [undefined].
    - The mutable cursor object [Parse] is threaded through a small state
      monad.
    - The result object [decoded] is a finite map from field names to
      JavaScript values.
    - [null] results are [None].
    - [dewpoint] (which needs [Math.log]) and the Node-RED glue at the end of
      the script, which passes [msg.payload] and [msg.port] to [Decoder], are
      not part of the embedding.

    In the definitions the names of the script are kept.  An operator of the
    script is written with the function that models it: [fadd], [fsub],
    [fmul], [fdiv] for [+ - * /] on doubles, [shl], [shr], [band] for
    [<< >> &] on 32-bit integers. *)

From Stdlib Require Import ZArith QArith Qpower Bool Lia.
From Stdlib Require Import Floats.SpecFloat Floats.PrimFloat Floats.FloatOps.
From stdpp Require Import base option list strings gmap pretty.

#[local] Set Warnings "-clear-no-such-hyp".

Local Open Scope Z_scope.

(** ** JavaScript numbers *)

Module JS.

Definition Z2SF (z : Z) : spec_float := binary_normalize prec emax z 0 false.

Definition fadd : spec_float -> spec_float -> spec_float := SFadd prec emax.
Definition fsub : spec_float -> spec_float -> spec_float := SFsub prec emax.
Definition fmul : spec_float -> spec_float -> spec_float := SFmul prec emax.
Definition fdiv : spec_float -> spec_float -> spec_float := SFdiv prec emax.
Definition fltb : spec_float -> spec_float -> bool := SFltb.
Definition fleb : spec_float -> spec_float -> bool := SFleb.

(** [x >= y] is [y <= x]; both are false when an operand is NaN. *)
Definition fgeb (x y : spec_float) : bool := SFleb y x.
Definition fgtb (x y : spec_float) : bool := SFltb y x.

(** [Math.pow(2, k)] for an integer [k]: the power of two itself (the
    nearest double where [2^k] is not one). *)
Definition Math_pow2 (k : Z) : spec_float := SFldexp prec emax (Z2SF 1) k.

(** [Math.floor] *)
Definition Math_floor (x : spec_float) : spec_float :=
  match x with
  | S754_finite s m e =>
      if 0 <=? e then x
      else
        let z := Z.shiftr (if s then Z.neg m else Z.pos m) (- e) in
        if z =? 0 then S754_zero s else Z2SF z
  | _ => x
  end.

Definition Math_abs : spec_float -> spec_float := SFabs.
Definition Math_sqrt : spec_float -> spec_float := SFsqrt prec emax.

(** The decimal literal [n / 10^p] of the script: the nearest double.  Both
    [n] and [10^p] are integers that are doubles themselves, so the correctly
    rounded quotient is the double nearest to the decimal
    (see [decimal_literals]). *)
Definition dec (n p : Z) : spec_float := fdiv (Z2SF n) (Z2SF (10 ^ p)).

(** The 32-bit signed integer that the bitwise operators work on. *)
Definition wrap32 (z : Z) : Z := (z + 2 ^ 31) mod 2 ^ 32 - 2 ^ 31.

(** An integer-valued number, or NaN. *)
Inductive jsint : Type :=
| JNaN
| JInt (z : Z).

(** [ToInt32]: NaN and [undefined] become 0. *)
Definition ToInt32 (v : jsint) : Z :=
  match v with
  | JNaN => 0
  | JInt z => wrap32 z
  end.

Definition ToInt32u (b : option Z) : Z :=
  match b with
  | None => 0
  | Some z => wrap32 z
  end.

(** [a << n], [a >> n] and [a & b] on already converted operands. *)
Definition shl (a n : Z) : Z := wrap32 (Z.shiftl a n).
Definition shr (a n : Z) : Z := Z.shiftr a n.
Definition band (a b : Z) : Z := Z.land a b.

(** [a + b] where [a] is an integer and [b] a byte read: an [undefined]
    operand makes the sum NaN. *)
Definition add_elem (a : Z) (b : option Z) : jsint :=
  match b with
  | Some z => JInt (a + z)
  | None => JNaN
  end.

(** [b === z] for a byte read [b], and [v === z] (or [v == z]) for an
    integer-valued number [v]: [undefined] and NaN equal no integer. *)
Definition elem_eq (b : option Z) (z : Z) : bool :=
  match b with
  | Some u => u =? z
  | None => false
  end.

Definition jsint_eq (v : jsint) (z : Z) : bool :=
  match v with
  | JInt u => u =? z
  | JNaN => false
  end.

(** The double denoted by a [jsint]. *)
Definition num (v : jsint) : spec_float :=
  match v with
  | JNaN => S754_nan
  | JInt z => Z2SF z
  end.

(** JavaScript values stored in the decoded records. *)
Inductive JSValue : Type :=
| JSUndefined
| JSNumber (x : spec_float)
| JSString (s : string).

Definition of_elem (b : option Z) : JSValue :=
  match b with
  | None => JSUndefined
  | Some z => JSNumber (Z2SF z)
  end.

(** [ToString] of a byte read, as used by string concatenation. *)
Definition str_elem (b : option Z) : string :=
  match b with
  | None => "undefined"
  | Some z => pretty z
  end.

(** The exact rational value of a finite double. *)
Definition SF2Q (x : spec_float) : option Q :=
  match x with
  | S754_zero _ => Some 0%Q
  | S754_finite s m e =>
      Some ((if s then inject_Z (Z.neg m) else inject_Z (Z.pos m)) * 2 ^ e)%Q
  | _ => None
  end.

End JS.

Import JS.

(** ** The parse cursor *)

Record Parse : Type := mkParse { Parse_bytes : list Z; Parse_i : nat }.

Definition Parser (A : Type) : Type := Parse -> A * Parse.

Definition ret {A} (a : A) : Parser A := fun P => (a, P).

Definition bind {A B} (c : Parser A) (k : A -> Parser B) : Parser B :=
  fun P => let '(a, P') := c P in k a P'.

Notation "'let*' x ':=' c 'in' k" := (bind c (fun x => k))
  (at level 10, x name, c at level 100, k at level 200).

(** [bytes[Parse.i + k]] *)
Definition peek (k : nat) : Parser (option Z) :=
  fun P => (Parse_bytes P !! (Parse_i P + k)%nat, P).

(** [Parse.i = i + n] *)
Definition advance (n : nat) : Parser unit :=
  fun P => (tt, mkParse (Parse_bytes P) (Parse_i P + n)).

(** [bytes[Parse.i++]] *)
Definition next_byte : Parser (option Z) :=
  let* b := peek 0 in let* _ := advance 1 in ret b.

(** ** Numeric codec *)

Definition DecodeU16 : Parser jsint :=
  let* b0 := peek 0 in
  let* b1 := peek 1 in
  let raw := add_elem (shl (ToInt32u b0) 8) b1 in
  let* _ := advance 2 in
  ret raw.

Definition DecodeI16 : Parser jsint :=
  let* Vraw := DecodeU16 in
  ret (if band (ToInt32 Vraw) 0x8000 =? 0 then Vraw
       else match Vraw with
            | JInt z => JInt (z + - 0x10000)
            | JNaN => JNaN
            end).

Definition DecodeU32 : Parser jsint :=
  let* b0 := peek 0 in
  let* b1 := peek 1 in
  let* b2 := peek 2 in
  let* b3 := peek 3 in
  let result :=
    add_elem (shl (ToInt32u b0) 24 + shl (ToInt32u b1) 16 + shl (ToInt32u b2) 8) b3 in
  let* _ := advance 4 in
  ret result.

Definition DecodeV : Parser spec_float :=
  let* v := DecodeI16 in
  ret (fdiv (num v) (Z2SF 4096)).

Definition DecodeUflt16 : Parser spec_float :=
  let* rawUflt16 := DecodeU16 in
  let exp1 := shr (ToInt32 rawUflt16) 12 in
  let mant1 := fdiv (Z2SF (band (ToInt32 rawUflt16) 0xFFF)) (Z2SF 4096) in
  let f_unscaled := fmul mant1 (Math_pow2 (exp1 - 15)) in
  ret f_unscaled.

Definition DecodeSflt16 : Parser spec_float :=
  let* rawSflt16 := DecodeU16 in
  if jsint_eq rawSflt16 0x8000 then ret (S754_zero true)
  else
    let sSign := if band (ToInt32 rawSflt16) 0x8000 =? 0 then 1 else -1 in
    let exp1 := band (shr (ToInt32 rawSflt16) 11) 0xF in
    let mant1 := fdiv (Z2SF (band (ToInt32 rawSflt16) 0x7FF)) (Z2SF 2048) in
    let f_unscaled := fmul (fmul (Z2SF sSign) mant1) (Math_pow2 (exp1 - 15)) in
    ret f_unscaled.

Definition DecodeU24 : Parser jsint :=
  let* b0 := peek 0 in
  let* b1 := peek 1 in
  let* b2 := peek 2 in
  let result := add_elem (shl (ToInt32u b0) 16 + shl (ToInt32u b1) 8) b2 in
  let* _ := advance 3 in
  ret result.

Definition DecodeSflt24 : Parser spec_float :=
  let* rawSflt24 := DecodeU24 in
  let bSign := negb (band (ToInt32 rawSflt24) 0x800000 =? 0) in
  let uExp := shr (band (ToInt32 rawSflt24) 0x7F0000) 16 in
  let uMantissa := band (ToInt32 rawSflt24) 0x00FFFF in
  if uExp =? 0x7F then
    if uMantissa =? 0 then ret (S754_infinity bSign)
    else ret S754_nan
  else
    let '(uMantissa, uExp) :=
      if negb (uExp =? 0) then (uMantissa + 0x010000, uExp)
      else (uMantissa, 1) in
    let mantissa := fdiv (Z2SF uMantissa) (Z2SF 0x010000) in
    let mantissa := fmul (Math_pow2 (uExp - 63)) mantissa in
    ret (if bSign then SFopp mantissa else mantissa).

Definition DecodeLux : Parser spec_float := DecodeSflt24.

(** ** Derived metrics *)

(** [0.5 * (t + 61.0 + ((t - 68.0) * 1.2) + (rh * 0.094))] *)
Definition tHeatEasy (t rh : spec_float) : spec_float :=
  fmul (dec 5 1)
    (fadd (fadd (fadd t (Z2SF 61)) (fmul (fsub t (Z2SF 68)) (dec 12 1)))
          (fmul rh (dec 94 3))).

(** The regression polynomial, with the coefficients [-42.379],
    [2.04901523], [10.14333127], [-0.22475541], [-0.00683783], [-0.05481717],
    [0.00122874], [0.00085282] and [-0.00000199], summed from left to
    right. *)
Definition tHeatHard (t rh : spec_float) : spec_float :=
  let t2 := fmul t t in
  let rh2 := fmul rh rh in
  fadd (fadd (fadd (fadd (fadd (fadd (fadd (fadd
    (dec (-42379) 3)
    (fmul (dec 204901523 8) t))
    (fmul (dec 1014333127 8) rh))
    (fmul (fmul (dec (-22475541) 8) t) rh))
    (fmul (dec (-683783) 8) t2))
    (fmul (dec (-5481717) 8) rh2))
    (fmul (fmul (dec 122874 8) t2) rh))
    (fmul (fmul (dec 85282 8) t) rh2))
    (fmul (fmul (dec (-199) 8) t2) rh2).

(** The adjustment for low humidity ([rh < 13], [80 <= t <= 112]) and for
    high humidity ([rh > 85], [80 <= t <= 87]). *)
Definition tAdjust (t rh : spec_float) : spec_float :=
  if fltb rh (Z2SF 13) && fleb (Z2SF 80) t && fleb t (Z2SF 112) then
    fmul (SFopp (fdiv (fsub (Z2SF 13) rh) (Z2SF 4)))
         (Math_sqrt (fdiv (fsub (Z2SF 17) (Math_abs (fsub t (Z2SF 95)))) (Z2SF 17)))
  else if fgtb rh (Z2SF 85) && fleb (Z2SF 80) t && fleb t (Z2SF 87) then
    fmul (fdiv (fsub rh (Z2SF 85)) (Z2SF 10)) (fdiv (fsub (Z2SF 87) t) (Z2SF 5))
  else Z2SF 0.

(** [None] is the script's [null]; [183.5] is [dec 1835 1]. *)
Definition CalculateHeatIndex (t rh : spec_float) : option spec_float :=
  let tRounded := Math_floor (fadd t (dec 5 1)) in
  if fltb tRounded (Z2SF 76) || fgtb tRounded (Z2SF 126) then None
  else if fltb rh (Z2SF 0) || fgtb rh (Z2SF 100) then None
  else
    let easy := tHeatEasy t rh in
    if fltb (fadd easy t) (Z2SF 160) then Some easy
    else
      let tResult := fadd (tHeatHard t rh) (tAdjust t rh) in
      if fgeb tResult (dec 1835 1) then None else Some tResult.

Definition CalculateHeatIndexCelsius (t rh : spec_float) : option spec_float :=
  match CalculateHeatIndex t rh with
  | Some result => Some (fdiv (fmul (fsub result (Z2SF 32)) (Z2SF 5)) (Z2SF 9))
  | None => None
  end.

(** ** Downlink responses (port 3) *)

Abbreviation record := (gmap string JSValue).

(** The status byte: [decoded.Response] is set for 0, 1 and 2 only. *)
Definition set_Response (responseError : option Z) (decoded : record) : record :=
  if elem_eq responseError 0 then <["Response" := JSString "Success"]> decoded
  else if elem_eq responseError 1 then
    <["Response" := JSString "Invalid Length"]> decoded
  else if elem_eq responseError 2 then <["Response" := JSString "Failure"]> decoded
  else decoded.

Definition set_Rev (Rev : option Z) (decoded : record) : record :=
  if elem_eq Rev 0 then <["Rev" := JSString "A"]> decoded
  else if elem_eq Rev 1 then <["Rev" := JSString "B"]> decoded
  else if elem_eq Rev 2 then <["Rev" := JSString "C"]> decoded
  else if elem_eq Rev 3 then <["Rev" := JSString "D"]> decoded
  else if elem_eq Rev 4 then <["Rev" := JSString "E"]> decoded
  else decoded.

Definition response_version (decoded : record) : Parser record :=
  let decoded := <["ResponseType" := JSString "Device Version"]> decoded in
  let* responseError := next_byte in
  let decoded := set_Response responseError decoded in
  let* vMajor := next_byte in
  let* vMinor := next_byte in
  let* vPatch := next_byte in
  let* vLocal := next_byte in
  let decoded :=
    <["AppVersion" :=
        JSString ("V" +:+ str_elem vMajor +:+ "." +:+ str_elem vMinor +:+ "."
                  +:+ str_elem vPatch +:+ "." +:+ str_elem vLocal)]> decoded in
  let* Model := DecodeU16 in
  let* Rev := next_byte in
  if negb (jsint_eq Model 0) then
    ret (set_Rev Rev (<["Model" := JSNumber (num Model)]> decoded))
  else if jsint_eq Model 0 then
    ret (<["Rev" := JSString "Not Found"]>
           (<["Model" := JSNumber (Z2SF 5230)]> decoded))
  else ret decoded.

Definition response_status (name : string) (decoded : record) : Parser record :=
  let decoded := <["ResponseType" := JSString name]> decoded in
  let* responseError := next_byte in
  ret (set_Response responseError decoded).

Definition response_interval (decoded : record) : Parser record :=
  let decoded := <["ResponseType" := JSString "Uplink Interval"]> decoded in
  let* responseError := next_byte in
  let decoded := set_Response responseError decoded in
  let* interval := DecodeU32 in
  ret (<["UplinkInterval" := JSNumber (num interval)]> decoded).

Definition DownlinkBody : Parser record :=
  let decoded : record := ∅ in
  let* command := next_byte in
  if elem_eq command 0x01 then ret decoded
  else if elem_eq command 0x02 then ret decoded
  else if elem_eq command 0x03 then response_version decoded
  else if elem_eq command 0x04 then response_status "AppEUI Set" decoded
  else if elem_eq command 0x05 then response_status "AppKey set" decoded
  else if elem_eq command 0x06 then response_status "Rejoin" decoded
  else if elem_eq command 0x07 then response_interval decoded
  else ret decoded.

Definition DecodeDownlinkResponse (bytes : list Z) : record :=
  fst (DownlinkBody (mkParse bytes 0)).

(** ** Uplink records (ports 1 and 4) *)

(** [flags & mask] as a condition; an [undefined] bitmap selects nothing. *)
Definition flag_set (flags : option Z) (mask : Z) : bool :=
  negb (band (ToInt32u flags) mask =? 0).

Definition fields_v (decoded : record) : Parser record :=
  let* vBat := DecodeV in
  let decoded := <["vBat" := JSNumber vBat]> decoded in
  let* vBus := DecodeV in
  let decoded := <["vBus" := JSNumber vBus]> decoded in
  let* vSys := DecodeV in
  ret (<["vSys" := JSNumber vSys]> decoded).

Definition fields_version (decoded : record) : Parser record :=
  let* vMajor := next_byte in
  let* vMinor := next_byte in
  let* vPatch := next_byte in
  let* vLocal := next_byte in
  ret (<["version" :=
           JSString (str_elem vMajor +:+ "." +:+ str_elem vMinor +:+ "."
                     +:+ str_elem vPatch +:+ "." +:+ str_elem vLocal)]> decoded).

Definition fields_boot (decoded : record) : Parser record :=
  let* iBoot := next_byte in
  ret (<["boot" := of_elem iBoot]> decoded).

Definition fields_env (decoded : record) : Parser record :=
  let* t := DecodeI16 in
  let decoded := <["t" := JSNumber (num t)]> decoded in
  let* u := DecodeUflt16 in
  ret (<["rh" := JSNumber (fdiv (fmul u (Z2SF 100)) (Z2SF 65535))]> decoded).

Definition fields_lux (decoded : record) : Parser record :=
  let* lux := DecodeLux in
  ret (<["lux" := JSNumber lux]> decoded).

(** [decoded.tap = bytes[Parse.i]]: the cursor is left where it was. *)
Definition fields_tap (decoded : record) : Parser record :=
  let* tap := peek 0 in
  ret (<["tap" := of_elem tap]> decoded).

Definition when (c : bool) (k : record -> Parser record) (decoded : record)
  : Parser record :=
  if c then k decoded else ret decoded.

(** The body of [Decoder] after the format check, with [Parse.i = 1]. *)
Definition UplinkBody : Parser record :=
  let decoded : record := ∅ in
  let* flags := next_byte in
  let* decoded := when (flag_set flags 0x1) fields_v decoded in
  let* decoded := when (flag_set flags 0x2) fields_version decoded in
  let* decoded := when (flag_set flags 0x4) fields_boot decoded in
  let* decoded := when (flag_set flags 0x8) fields_env decoded in
  let* decoded := when (flag_set flags 0x10) fields_lux decoded in
  let* decoded := when (flag_set flags 0x20) fields_tap decoded in
  ret decoded.

(** [None] is the script's [null]. *)
Definition Decoder (bytes : list Z) (port : Z) : option record :=
  if port =? 3 then Some (DecodeDownlinkResponse bytes)
  else if negb (port =? 1) && negb (port =? 3) && negb (port =? 4) then None
  else
    let uFormat := bytes !! 0%nat in
    if negb (elem_eq uFormat 0x50) then None
    else Some (fst (UplinkBody (mkParse bytes 1))).

(** The cursor offset when [Decoder] returns an uplink record. *)
Definition Decoder_consumed (bytes : list Z) : nat :=
  Parse_i (snd (UplinkBody (mkParse bytes 1))).

(** * Vocabulary of the properties

    The definitions below are not part of the script.  They state what the
    specification says about it ([selected_fields], [needed_bytes], ...) or
    name intermediate results of the script for the proofs. *)

(** ** Bytes and bitmaps *)

Definition is_byte (z : Z) : Prop := 0 <= z < 256.

(** The fields selected by a bitmap, bit by bit. *)
Definition selected_fields (flags : Z) : gset string :=
  (if Z.testbit flags 0 then {["vBat"; "vBus"; "vSys"]} else ∅) ∪
  (if Z.testbit flags 1 then {["version"]} else ∅) ∪
  (if Z.testbit flags 2 then {["boot"]} else ∅) ∪
  (if Z.testbit flags 3 then {["t"; "rh"]} else ∅) ∪
  (if Z.testbit flags 4 then {["lux"]} else ∅) ∪
  (if Z.testbit flags 5 then {["tap"]} else ∅).

(** The bytes that the selected groups read after the bitmap. *)
Definition needed_bytes (flags : Z) : nat :=
  (if Z.testbit flags 0 then 6 else 0) + (if Z.testbit flags 1 then 4 else 0) +
  (if Z.testbit flags 2 then 1 else 0) + (if Z.testbit flags 3 then 4 else 0) +
  (if Z.testbit flags 4 then 3 else 0) + (if Z.testbit flags 5 then 1 else 0).

(** The cursor advance after the bitmap: the tap byte is not counted. *)
Definition consumed_bytes (flags : Z) : nat :=
  (if Z.testbit flags 0 then 6 else 0) + (if Z.testbit flags 1 then 4 else 0) +
  (if Z.testbit flags 2 then 1 else 0) + (if Z.testbit flags 3 then 4 else 0) +
  (if Z.testbit flags 4 then 3 else 0).

(** [p] holds on the [2^n] integers from [lo] on. *)
Fixpoint all_upto (n : nat) (lo : Z) (p : Z -> bool) : bool :=
  match n with
  | O => p lo
  | S k => all_upto k lo p && all_upto k (lo + 2 ^ Z.of_nat k) p
  end.

(** ** Field groups of the uplink record *)

(** A group moves the cursor by [n], adds the keys [K] and leaves the other
    fields alone. *)
Definition group_effect (g : record -> Parser record) (K : gset string) (n : nat)
  : Prop :=
  forall d P,
    snd (g d P) = mkParse (Parse_bytes P) (Parse_i P + n) /\
    dom (fst (g d P)) = K ∪ dom d /\
    (forall k, k ∉ K -> fst (g d P) !! k = d !! k).

(** The cursor at which each group of [UplinkBody] starts. *)
Definition at_v (P : Parse) : Parse :=
  mkParse (Parse_bytes P) (Parse_i P + 1).
Definition at_version (flags : option Z) (P : Parse) : Parse :=
  mkParse (Parse_bytes P)
    (Parse_i (at_v P) + (if flag_set flags 0x1 then 6 else 0)).
Definition at_boot (flags : option Z) (P : Parse) : Parse :=
  mkParse (Parse_bytes P)
    (Parse_i (at_version flags P) + (if flag_set flags 0x2 then 4 else 0)).
Definition at_env (flags : option Z) (P : Parse) : Parse :=
  mkParse (Parse_bytes P)
    (Parse_i (at_boot flags P) + (if flag_set flags 0x4 then 1 else 0)).
Definition at_lux (flags : option Z) (P : Parse) : Parse :=
  mkParse (Parse_bytes P)
    (Parse_i (at_env flags P) + (if flag_set flags 0x8 then 4 else 0)).
Definition at_tap (flags : option Z) (P : Parse) : Parse :=
  mkParse (Parse_bytes P)
    (Parse_i (at_lux flags P) + (if flag_set flags 0x10 then 3 else 0)).

(** The keys of the record and the cursor advance after the bitmap, by the
    conditions that the script tests. *)
Definition code_fields (flags : option Z) : gset string :=
  (if flag_set flags 0x1 then {["vBat"; "vBus"; "vSys"]} else ∅) ∪
  (if flag_set flags 0x2 then {["version"]} else ∅) ∪
  (if flag_set flags 0x4 then {["boot"]} else ∅) ∪
  (if flag_set flags 0x8 then {["t"; "rh"]} else ∅) ∪
  (if flag_set flags 0x10 then {["lux"]} else ∅) ∪
  (if flag_set flags 0x20 then {["tap"]} else ∅).

Definition code_consumed (flags : option Z) : nat :=
  (if flag_set flags 0x1 then 6 else 0) + (if flag_set flags 0x2 then 4 else 0) +
  (if flag_set flags 0x4 then 1 else 0) + (if flag_set flags 0x8 then 4 else 0) +
  (if flag_set flags 0x10 then 3 else 0).

(** ** Downlink responses *)

(** The response type reported for the commands that report one. *)
Definition response_type_name (command : Z) : string :=
  if command =? 0x03 then "Device Version"
  else if command =? 0x04 then "AppEUI Set"
  else if command =? 0x05 then "AppKey set"
  else if command =? 0x06 then "Rejoin"
  else "Uplink Interval".

(** The status text for a status byte; none for a byte other than 0, 1, 2. *)
Definition status_text (responseError : option Z) : option JSValue :=
  if elem_eq responseError 0 then Some (JSString "Success")
  else if elem_eq responseError 1 then Some (JSString "Invalid Length")
  else if elem_eq responseError 2 then Some (JSString "Failure")
  else None.

(** ** Reduced-precision floats *)

(** The 53-bit mantissa of the double of a positive integer below [2^53]. *)
Definition canon_mant (p : positive) : positive :=
  match (53 - Zpos (digits2_pos p))%Z with
  | Zpos n => Pos.iter xO p n
  | _ => p
  end.

(** The three fields that [DecodeSflt24] takes from the 24-bit pattern, and
    the value that it computes from them. *)
Definition sflt24_sign (raw : Z) : bool := negb (band raw 0x800000 =? 0).
Definition sflt24_exp (raw : Z) : Z := shr (band raw 0x7F0000) 16.
Definition sflt24_mant (raw : Z) : Z := band raw 0x00FFFF.

Definition sflt24_value (raw : Z) : spec_float :=
  let bSign := sflt24_sign raw in
  let uExp := sflt24_exp raw in
  let uMantissa := sflt24_mant raw in
  if uExp =? 0x7F then
    if uMantissa =? 0 then S754_infinity bSign else S754_nan
  else
    let '(uMantissa, uExp) :=
      if negb (uExp =? 0) then (uMantissa + 0x010000, uExp)
      else (uMantissa, 1) in
    let mantissa := fmul (Math_pow2 (uExp - 63))
                      (fdiv (Z2SF uMantissa) (Z2SF 0x010000)) in
    if bSign then SFopp mantissa else mantissa.

(** The value that [DecodeUflt16] computes from the 16-bit pattern, and the
    [rh] field derived from it. *)
Definition uflt16_value (raw : Z) : spec_float :=
  fmul (fdiv (Z2SF (band raw 0xFFF)) (Z2SF 4096)) (Math_pow2 (shr raw 12 - 15)).

Definition rh_value (raw : Z) : spec_float :=
  fdiv (fmul (uflt16_value raw) (Z2SF 100)) (Z2SF 65535).

(** [100 * (4095 / 4096) / 65535] in double arithmetic. *)
Definition rh_max : spec_float :=
  fdiv (fmul (Z2SF 100) (fdiv (Z2SF 4095) (Z2SF 4096))) (Z2SF 65535).

Definition rh_in_range (raw : Z) : bool :=
  let rh := rh_value raw in
  fleb (Z2SF 0) rh && fleb rh rh_max.

(** Moving the exponent of a finite double. *)
Definition scale (d : Z) (x : spec_float) : spec_float :=
  match x with
  | S754_finite s m e => S754_finite s m (e + d)
  | _ => x
  end.

(** Rounding [mx * 2^ex] stays in the normal range, with room for lowering
    the exponent by [- dmin]. *)
Definition round_margin (mx ex : Z) (lx : location) (dmin : Z) : bool :=
  let s1 := shr_fexp prec emax mx ex lx in
  let m1 := round_nearest_even (shr_m (fst s1)) (loc_of_shr_record (fst s1)) in
  let s2 := shr_fexp prec emax m1 (snd s1) loc_Exact in
  (-1021 <=? Zdigits2 mx + ex + dmin) &&
  (-1021 <=? Zdigits2 m1 + snd s1 + dmin) &&
  (snd s2 <=? 971).

Definition fmul_margin (x y : spec_float) (dmin : Z) : bool :=
  match x, y with
  | S754_finite _ mx ex, S754_finite _ my ey =>
      round_margin (Zpos (mx * my)) (ex + ey) loc_Exact dmin
  | _, _ => true
  end.

Definition fdiv_margin (x y : spec_float) (dmin : Z) : bool :=
  match x, y with
  | S754_finite _ mx ex, S754_finite _ my ey =>
      let '(mz, ez, lz) := SFdiv_core_binary prec emax (Zpos mx) ex (Zpos my) ey in
      (-1021 <=? Zpos (digits2_pos mx) + ex - (Zpos (digits2_pos my) + ey) + dmin) &&
      round_margin mz ez lz dmin
  | _, _ => true
  end.

(** What is checked for each 12-bit mantissa, at the largest exponent. *)
Definition rh_check (m : Z) : bool :=
  let x := fdiv (Z2SF m) (Z2SF 4096) in
  let y := fmul x (Z2SF 100) in
  match x with
  | S754_finite _ cm ce =>
      (digits2_pos cm =? 53)%positive && (-1000 <=? ce) && (ce <=? 0) &&
      fmul_margin x (Z2SF 100) (-15) && fdiv_margin y (Z2SF 65535) (-15)
  | S754_zero _ => true
  | _ => false
  end && rh_in_range (15 * 4096 + m) &&
  fleb (Z2SF 0) (uflt16_value (15 * 4096 + m)) &&
  fltb (uflt16_value (15 * 4096 + m)) (Z2SF 1).

(** * Properties *)

#[global] Arguments fdiv : simpl never.
#[global] Arguments fmul : simpl never.
#[global] Arguments fadd : simpl never.
#[global] Arguments fsub : simpl never.
#[global] Arguments Z2SF : simpl never.
#[global] Arguments Math_pow2 : simpl never.
#[global] Arguments num : simpl never.
#[global] Arguments wrap32 : simpl never.

(** ** Bounded enumeration *)

Lemma all_upto_spec (n : nat) (p : Z -> bool) :
  forall lo, all_upto n lo p = true ->
  forall z, lo <= z < lo + 2 ^ Z.of_nat n -> p z = true.
Proof.
  induction n as [|n IH]; intros lo H z Hz.
  - cbn in *. replace z with lo by lia. exact H.
  - cbn [all_upto] in H. apply andb_prop in H. destruct H as [H1 H2].
    rewrite Nat2Z.inj_succ, Z.pow_succ_r in Hz by lia.
    destruct (Z_lt_ge_dec z (lo + 2 ^ Z.of_nat n)).
    + apply (IH lo); [exact H1 | lia].
    + apply (IH (lo + 2 ^ Z.of_nat n)); [exact H2 | lia].
Qed.

(** ** Integers of the script *)

Lemma wrap32_small (z : Z) : - 2 ^ 31 <= z < 2 ^ 31 -> wrap32 z = z.
Proof.
  intros H. unfold wrap32.
  rewrite Z.mod_small by (change (2 ^ 32) with (2 ^ 31 + 2 ^ 31); lia). lia.
Qed.

Lemma shl_byte (b n : Z) :
  is_byte b -> 0 <= n <= 16 -> shl (wrap32 b) n = b * 2 ^ n.
Proof.
  intros Hb Hn. unfold is_byte in Hb. unfold shl.
  assert (H31 : 2 ^ 31 = 2147483648) by reflexivity.
  rewrite (wrap32_small b) by lia.
  rewrite Z.shiftl_mul_pow2 by lia.
  assert (Hp : 0 < 2 ^ n <= 2 ^ 16).
  { split; [apply Z.pow_pos_nonneg; lia | apply Z.pow_le_mono_r; lia]. }
  change (2 ^ 16) with 65536 in Hp.
  apply wrap32_small. rewrite H31. nia.
Qed.

Lemma land_pow2_eqb (a n : Z) :
  0 <= n -> (Z.land a (2 ^ n) =? 0) = negb (Z.testbit a n).
Proof.
  intros Hn. destruct (Z.testbit a n) eqn:E; cbn [negb].
  - apply Z.eqb_neq. intros H0.
    assert (Hb : Z.testbit (Z.land a (2 ^ n)) n = true).
    { rewrite Z.land_spec, E, Z.pow2_bits_true by lia. reflexivity. }
    rewrite H0, Z.bits_0 in Hb. discriminate.
  - apply Z.eqb_eq. apply Z.bits_inj'. intros i Hi.
    rewrite Z.land_spec, Z.bits_0.
    destruct (Z.eq_dec n i) as [->|Hne].
    + rewrite E. reflexivity.
    + rewrite Z.pow2_bits_false by lia. apply andb_false_r.
Qed.

Lemma flag_set_testbit (flags : Z) :
  is_byte flags ->
  flag_set (Some flags) 0x1 = Z.testbit flags 0 /\
  flag_set (Some flags) 0x2 = Z.testbit flags 1 /\
  flag_set (Some flags) 0x4 = Z.testbit flags 2 /\
  flag_set (Some flags) 0x8 = Z.testbit flags 3 /\
  flag_set (Some flags) 0x10 = Z.testbit flags 4 /\
  flag_set (Some flags) 0x20 = Z.testbit flags 5.
Proof.
  intros Hb.
  pose (chk := fun f =>
    Bool.eqb (flag_set (Some f) 0x1) (Z.testbit f 0) &&
    Bool.eqb (flag_set (Some f) 0x2) (Z.testbit f 1) &&
    Bool.eqb (flag_set (Some f) 0x4) (Z.testbit f 2) &&
    Bool.eqb (flag_set (Some f) 0x8) (Z.testbit f 3) &&
    Bool.eqb (flag_set (Some f) 0x10) (Z.testbit f 4) &&
    Bool.eqb (flag_set (Some f) 0x20) (Z.testbit f 5)).
  assert (H : chk flags = true).
  { apply (all_upto_spec 8 chk 0); [vm_compute; reflexivity | exact Hb]. }
  unfold chk in H.
  repeat (apply andb_prop in H; destruct H as [H ?]).
  repeat split; apply Bool.eqb_prop; assumption.
Qed.

(** The three fields that [DecodeSflt24] extracts from a 24-bit pattern. *)
Lemma sflt24_fields (raw : Z) :
  0 <= raw < 2 ^ 24 ->
  sflt24_sign raw = Z.testbit raw 23 /\
  sflt24_exp raw = (raw / 2 ^ 16) mod 2 ^ 7 /\
  sflt24_mant raw = raw mod 2 ^ 16.
Proof.
  intros Hr. unfold sflt24_sign, sflt24_exp, sflt24_mant, band, shr.
  split; [|split].
  - change 0x800000 with (2 ^ 23). rewrite land_pow2_eqb by lia.
    apply negb_involutive.
  - rewrite Z.shiftr_land. change (Z.shiftr 0x7F0000 16) with (Z.ones 7).
    rewrite Z.land_ones by lia. rewrite Z.shiftr_div_pow2 by lia. reflexivity.
  - change 0x00FFFF with (Z.ones 16). apply Z.land_ones. lia.
Qed.

(** ** Reads at the cursor *)

Ltac parse_step :=
  unfold DecodeLux, DecodeSflt24, DecodeV, DecodeUflt16, DecodeI16, DecodeU24,
    DecodeU32, DecodeU16, next_byte, peek, advance, bind, ret;
  cbn [fst snd Parse_bytes Parse_i].

Ltac frame_keys :=
  let k := fresh "k" in
  let Hk := fresh "Hk" in
  intros k Hk; rewrite ?lookup_insert_ne by set_solver; reflexivity.

Lemma lookup_byte (bytes : list Z) (k : nat) :
  Forall is_byte bytes -> (k < length bytes)%nat ->
  exists b, bytes !! k = Some b /\ is_byte b.
Proof.
  intros Hall Hk. destruct (lookup_lt_is_Some_2 bytes k Hk) as [b Hb].
  exists b. split; [exact Hb|]. exact (proj1 (Forall_lookup _ _) Hall k b Hb).
Qed.

(** A two-byte read with both bytes present is the big-endian integer. *)
Lemma DecodeU16_bytes (P : Parse) (b0 b1 : Z) :
  Parse_bytes P !! Parse_i P = Some b0 ->
  Parse_bytes P !! (Parse_i P + 1)%nat = Some b1 ->
  is_byte b0 -> is_byte b1 ->
  DecodeU16 P = (JInt (b0 * 256 + b1), mkParse (Parse_bytes P) (Parse_i P + 2)).
Proof.
  intros H0 H1 B0 B1. parse_step. rewrite Nat.add_0_r, H0, H1.
  cbn [ToInt32u add_elem]. rewrite !shl_byte by (assumption || lia).
  reflexivity.
Qed.

(** A three-byte read with all bytes present is the big-endian integer. *)
Lemma DecodeU24_bytes (P : Parse) (b0 b1 b2 : Z) :
  Parse_bytes P !! Parse_i P = Some b0 ->
  Parse_bytes P !! (Parse_i P + 1)%nat = Some b1 ->
  Parse_bytes P !! (Parse_i P + 2)%nat = Some b2 ->
  is_byte b0 -> is_byte b1 -> is_byte b2 ->
  DecodeU24 P = (JInt (b0 * 65536 + b1 * 256 + b2),
                 mkParse (Parse_bytes P) (Parse_i P + 3)).
Proof.
  intros H0 H1 H2 B0 B1 B2. parse_step. rewrite Nat.add_0_r, H0, H1, H2.
  cbn [ToInt32u add_elem]. rewrite !shl_byte by (assumption || lia).
  reflexivity.
Qed.

(** A 16-bit read whose second byte lies past the end of the buffer is NaN,
    and the cursor still moves by two. *)
Lemma DecodeU16_past_end (P : Parse) :
  (length (Parse_bytes P) <= Parse_i P + 1)%nat ->
  DecodeU16 P = (JNaN, mkParse (Parse_bytes P) (Parse_i P + 2)).
Proof.
  intros H. parse_step.
  rewrite (proj2 (lookup_ge_None (Parse_bytes P) (Parse_i P + 1)%nat)) by lia.
  reflexivity.
Qed.

Lemma DecodeV_past_end (P : Parse) :
  (length (Parse_bytes P) <= Parse_i P + 1)%nat ->
  fst (DecodeV P) = S754_nan.
Proof.
  intros H. unfold DecodeV, DecodeI16, bind, ret.
  rewrite (DecodeU16_past_end P H). reflexivity.
Qed.

Lemma DecodeSflt24_cursor (P : Parse) :
  snd (DecodeSflt24 P) = mkParse (Parse_bytes P) (Parse_i P + 3).
Proof.
  parse_step.
  repeat match goal with |- context [if ?c then _ else _] => destruct c end;
    reflexivity.
Qed.

Lemma DecodeSflt24_unfold (P : Parse) :
  DecodeSflt24 P
  = (sflt24_value (ToInt32 (fst (DecodeU24 P))), snd (DecodeU24 P)).
Proof.
  unfold DecodeSflt24, bind, ret, sflt24_value, sflt24_sign, sflt24_exp,
    sflt24_mant.
  destruct (DecodeU24 P) as [v P']. cbn [fst snd].
  repeat match goal with |- context [if ?c then _ else _] => destruct c end;
    reflexivity.
Qed.

(** ** Exact binary64 arithmetic

    The decoders only scale integers by powers of two.  The lemmas below show
    that the binary64 operations involved are then exact. *)

Module Binary64.

Lemma digits2_iter_xO (p n : positive) :
  digits2_pos (Pos.iter xO p n) = (digits2_pos p + n)%positive.
Proof.
  induction n as [|n IH] using Pos.peano_ind.
  - cbn. lia.
  - rewrite Pos.iter_succ. cbn [digits2_pos]. rewrite IH. lia.
Qed.

Lemma iter_pos_iter {A} (f : A -> A) (n : positive) :
  forall x, @SpecFloat.iter_pos A f n x = Pos.iter f x n.
Proof.
  induction n as [n IH|n IH|]; intros x; cbn [SpecFloat.iter_pos Pos.iter].
  - rewrite !IH. rewrite <- !Pos.iter_swap. reflexivity.
  - rewrite !IH. reflexivity.
  - reflexivity.
Qed.

Lemma shr_iter_xO (m n : positive) :
  @SpecFloat.iter_pos _ shr_1 n
    (Build_shr_record (Zpos (Pos.iter xO m n)) false false)
  = Build_shr_record (Zpos m) false false.
Proof.
  rewrite iter_pos_iter.
  induction n as [|n IH] using Pos.peano_ind.
  - reflexivity.
  - rewrite Pos.iter_succ_r, Pos.iter_succ. cbn [shr_1 orb]. exact IH.
Qed.

Lemma fexp_normal (x : Z) : -1021 <= x -> fexp prec emax x = x - 53.
Proof. intros H. unfold fexp, emin, prec, emax. lia. Qed.

(** Rounding an exact, already canonical mantissa changes nothing. *)
Lemma binary_round_aux_canonical (s : bool) (m : positive) (e : Z) :
  digits2_pos m = 53%positive ->
  -1074 <= e <= 971 ->
  binary_round_aux prec emax s (Zpos m) e loc_Exact = S754_finite s m e.
Proof.
  intros Hd He. unfold binary_round_aux, shr_fexp.
  cbn [Zdigits2 shr_record_of_loc]. rewrite Hd.
  rewrite fexp_normal by lia.
  replace (53 + e - 53 - e) with 0 by lia.
  cbn [SpecFloat.shr shr_m loc_of_shr_record round_nearest_even Zdigits2
       shr_record_of_loc].
  rewrite Hd. rewrite fexp_normal by lia.
  replace (53 + e - 53 - e) with 0 by lia. cbn [SpecFloat.shr shr_m].
  replace (e <=? emax - prec) with true; [reflexivity|].
  symmetry. apply Z.leb_le. unfold emax, prec. lia.
Qed.

(** Rounding an exact mantissa with [n] trailing zero bits drops them. *)
Lemma binary_round_aux_shifted (s : bool) (m n : positive) (e : Z) :
  digits2_pos m = 53%positive ->
  -1074 <= e + Zpos n <= 971 ->
  binary_round_aux prec emax s (Zpos (Pos.iter xO m n)) e loc_Exact
  = S754_finite s m (e + Zpos n).
Proof.
  intros Hd He. unfold binary_round_aux, shr_fexp.
  cbn [Zdigits2 shr_record_of_loc]. rewrite digits2_iter_xO, Hd.
  rewrite fexp_normal by lia.
  replace (Z.pos (53 + n) + e - 53 - e) with (Zpos n) by lia.
  cbn [SpecFloat.shr]. rewrite shr_iter_xO.
  cbn [shr_m loc_of_shr_record round_nearest_even Zdigits2 shr_record_of_loc].
  rewrite Hd. rewrite fexp_normal by lia.
  replace (53 + (e + Z.pos n) - 53 - (e + Z.pos n)) with 0 by lia.
  cbn [SpecFloat.shr shr_m].
  replace (e + Z.pos n <=? emax - prec) with true; [reflexivity|].
  symmetry. apply Z.leb_le. unfold emax, prec. lia.
Qed.

Lemma Z2SF_pos (p : positive) :
  Zpos (digits2_pos p) <= 53 ->
  Z2SF (Zpos p) = S754_finite false (canon_mant p) (Zpos (digits2_pos p) - 53) /\
  digits2_pos (canon_mant p) = 53%positive.
Proof.
  intros Hd. unfold Z2SF, binary_normalize, binary_round, shl_align, canon_mant.
  rewrite fexp_normal by lia.
  replace (Z.pos (digits2_pos p) + 0 - 53 - 0)
    with (Zpos (digits2_pos p) - 53) by lia.
  destruct (Z.pos (digits2_pos p) - 53) as [|q|q] eqn:E; try lia.
  - replace (53 - Z.pos (digits2_pos p)) with 0 by lia.
    assert (H53 : digits2_pos p = 53%positive) by lia.
    split; [|exact H53]. apply binary_round_aux_canonical; [exact H53 | lia].
  - replace (53 - Z.pos (digits2_pos p)) with (Zpos q) by lia.
    assert (H53 : digits2_pos (Pos.iter xO p q) = 53%positive).
    { rewrite digits2_iter_xO. lia. }
    split; [|exact H53].
    replace (Z.pos (digits2_pos p) + 0 - 53) with (Z.neg q) by lia.
    apply binary_round_aux_canonical; [exact H53 | lia].
Qed.

Lemma Math_pow2_normal (k : Z) :
  -1022 <= k <= 1023 ->
  Math_pow2 k = S754_finite false 4503599627370496 (k - 52).
Proof.
  intros Hk. unfold Math_pow2.
  change (Z2SF 1) with (S754_finite false 4503599627370496 (-52)).
  unfold SFldexp, binary_round, shl_align.
  change (digits2_pos 4503599627370496) with 53%positive.
  rewrite fexp_normal by lia.
  replace (53 + (-52 + k) - 53 - (-52 + k)) with 0 by lia.
  cbv iota. replace (-52 + k) with (k - 52) by lia.
  apply binary_round_aux_canonical; [reflexivity | lia].
Qed.

(** Multiplying by a power of two only moves the exponent. *)
Lemma fmul_pow2 (s : bool) (m : positive) (e k : Z) :
  digits2_pos m = 53%positive ->
  -1022 <= k <= 1023 ->
  -1074 <= e + k <= 971 ->
  fmul (Math_pow2 k) (S754_finite s m e) = S754_finite s m (e + k).
Proof.
  intros Hd Hk He. rewrite Math_pow2_normal by exact Hk.
  unfold fmul, SFmul. cbn [xorb].
  change (4503599627370496 * m)%positive with (Pos.iter xO m 52).
  rewrite binary_round_aux_shifted by (try exact Hd; lia).
  f_equal. lia.
Qed.

(** Multiplying a canonical double by a power of two, on the right. *)
Lemma fmul_pow2_r (s : bool) (m : positive) (e k : Z) :
  digits2_pos m = 53%positive ->
  -1022 <= k <= 1023 ->
  -1074 <= e + k <= 971 ->
  fmul (S754_finite s m e) (Math_pow2 k) = S754_finite s m (e + k).
Proof.
  intros Hd Hk He. rewrite Math_pow2_normal by exact Hk.
  unfold fmul, SFmul. rewrite xorb_false_r, Pos.mul_comm.
  change (4503599627370496 * m)%positive with (Pos.iter xO m 52).
  rewrite binary_round_aux_shifted by (try exact Hd; lia).
  f_equal. lia.
Qed.

(** Dividing by [2^16] only moves the exponent. *)
Lemma fdiv_65536 (s : bool) (m : positive) (e : Z) :
  digits2_pos m = 53%positive ->
  -1000 <= e <= 900 ->
  fdiv (S754_finite s m e) (Z2SF 65536) = S754_finite s m (e - 16).
Proof.
  intros Hd He.
  change (Z2SF 65536) with (S754_finite false 4503599627370496 (-36)).
  unfold fdiv, SFdiv, SFdiv_core_binary. cbn [Zdigits2 xorb]. rewrite Hd.
  change (digits2_pos 4503599627370496) with 53%positive.
  rewrite fexp_normal by lia.
  replace (Z.min (53 + e - (53 + -36) - 53) (e - -36)) with (e - 17) by lia.
  replace (e - -36 - (e - 17)) with 53 by lia.
  replace (Z.shiftl (Z.pos m) 53) with (Zpos (Pos.iter xO m 1) * 4503599627370496).
  2:{ rewrite Z.shiftl_mul_pow2 by lia. change (2 ^ 53) with (2 * 4503599627370496).
      cbn [Pos.iter]. rewrite Pos2Z.inj_xO. ring. }
  assert (E : Z.div_eucl (Z.pos (Pos.iter xO m 1) * 4503599627370496) 4503599627370496
              = (Z.pos (Pos.iter xO m 1), 0)).
  { pose proof (Z_div_mod (Z.pos (Pos.iter xO m 1) * 4503599627370496)
                  4503599627370496 eq_refl) as H.
    destruct (Z.div_eucl (Z.pos (Pos.iter xO m 1) * 4503599627370496)
                4503599627370496) as [q r].
    destruct H as [H1 H2]. f_equal; nia. }
  rewrite E. cbn [new_location].
  change (new_location 4503599627370496 0) with loc_Exact.
  rewrite binary_round_aux_shifted by (try exact Hd; lia).
  rewrite xorb_false_r. f_equal. lia.
Qed.

Lemma Qpow2_add (a b : Z) : (2 ^ (a + b) == 2 ^ a * 2 ^ b)%Q.
Proof. apply Qpower_plus. discriminate. Qed.

Lemma inject_pow2 (n : Z) : 0 <= n -> (inject_Z (2 ^ n) == 2 ^ n)%Q.
Proof. intros H. rewrite Zpower_Qpower by exact H. reflexivity. Qed.

Lemma iter_xO_value (p n : positive) :
  Zpos (Pos.iter xO p n) = Zpos p * 2 ^ Zpos n.
Proof.
  induction n as [|n IH] using Pos.peano_ind.
  - cbn [Pos.iter]. rewrite Pos2Z.inj_xO. change (2 ^ 1) with 2. ring.
  - rewrite Pos.iter_succ, Pos2Z.inj_xO, IH, Pos2Z.inj_succ, Z.pow_succ_r by lia.
    ring.
Qed.

Lemma canon_mant_value (p : positive) :
  Zpos (digits2_pos p) <= 53 ->
  Zpos (canon_mant p) = Zpos p * 2 ^ (53 - Zpos (digits2_pos p)).
Proof.
  intros H. unfold canon_mant.
  destruct (53 - Z.pos (digits2_pos p)) as [|n|n] eqn:E; try lia.
  apply iter_xO_value.
Qed.

Lemma digits2_lower (p : positive) :
  2 ^ (Zpos (digits2_pos p) - 1) <= Zpos p.
Proof.
  induction p as [p IH|p IH|]; cbn [digits2_pos].
  - rewrite Pos2Z.inj_succ. change (Z.pos p~1) with (2 * Z.pos p + 1).
    replace (Z.succ (Z.pos (digits2_pos p)) - 1)
      with (Z.succ (Z.pos (digits2_pos p) - 1)) by lia.
    rewrite Z.pow_succ_r by lia. lia.
  - rewrite Pos2Z.inj_succ. change (Z.pos p~0) with (2 * Z.pos p).
    replace (Z.succ (Z.pos (digits2_pos p)) - 1)
      with (Z.succ (Z.pos (digits2_pos p) - 1)) by lia.
    rewrite Z.pow_succ_r by lia. lia.
  - reflexivity.
Qed.

Lemma digits2_bound (p : positive) (n : Z) :
  0 <= n -> Zpos p < 2 ^ n -> Zpos (digits2_pos p) <= n.
Proof.
  intros Hn Hp. pose proof (digits2_lower p) as Hl.
  destruct (Z_le_gt_dec (Zpos (digits2_pos p)) n) as [H|H]; [exact H|].
  assert (2 ^ n <= 2 ^ (Zpos (digits2_pos p) - 1))
    by (apply Z.pow_le_mono_r; lia).
  lia.
Qed.

Lemma scale_Q (z a b : Z) :
  0 <= a -> (inject_Z (z * 2 ^ a) * 2 ^ b == inject_Z z * 2 ^ (a + b))%Q.
Proof.
  intros Ha. rewrite inject_Z_mult, inject_pow2 by exact Ha.
  rewrite Qpow2_add. ring.
Qed.

End Binary64.

Import Binary64.

(** ** The 24-bit float: magnitude and sign *)

(** The magnitude computed by [DecodeSflt24]: the 17-bit integer mantissa
    divided by [2^16] and scaled by [2^k], with no rounding. *)
Lemma sflt24_magnitude (z k : Z) :
  0 < z < 2 ^ 17 -> -62 <= k <= 63 ->
  exists m e,
    fmul (Math_pow2 k) (fdiv (Z2SF z) (Z2SF 0x010000)) = S754_finite false m e /\
    (inject_Z (Zpos m) * 2 ^ e == inject_Z z / 65536 * 2 ^ k)%Q.
Proof.
  intros Hz Hk. destruct z as [|p|p]; try lia.
  assert (Hd : Zpos (digits2_pos p) <= 17) by (apply digits2_bound; lia).
  destruct (Z2SF_pos p) as [Hv Hc]; [lia|].
  rewrite Hv. rewrite fdiv_65536 by (try exact Hc; lia).
  rewrite fmul_pow2 by (try exact Hc; lia).
  eexists _, _. split; [reflexivity|].
  rewrite canon_mant_value by lia. rewrite scale_Q by lia.
  replace (53 - Z.pos (digits2_pos p) + (Z.pos (digits2_pos p) - 53 - 16 + k))
    with (-16 + k) by lia.
  rewrite Qpow2_add.
  assert (H16 : (2 ^ (-16) == / 65536)%Q) by reflexivity.
  rewrite H16. unfold Qdiv. ring.
Qed.

Lemma signed_value (s : bool) (m : positive) (e : Z) (q : Q) :
  (inject_Z (Zpos m) * 2 ^ e == q)%Q ->
  exists q', SF2Q (if s then SFopp (S754_finite false m e)
                   else S754_finite false m e) = Some q' /\
             (q' == (if s then -1 else 1) * q)%Q.
Proof.
  intros H. destruct s; cbn [SFopp negb SF2Q]; eexists; (split; [reflexivity|]).
  - rewrite <- H. change (inject_Z (Z.neg m)) with (- inject_Z (Z.pos m))%Q. ring.
  - rewrite <- H. ring.
Qed.

(** ** Lowering the exponent commutes with rounding

    In the normal range a product or a quotient depends on the exponent of its
    first operand only through the exponent of the result.  The [rh] bound is
    therefore checked by evaluation for the 4096 mantissas at the largest
    exponent only. *)

Lemma shr_fexp_scale (m e d : Z) (l : location) :
  -1021 <= Zdigits2 m + e -> -1021 <= Zdigits2 m + e + d ->
  shr_fexp prec emax m (e + d) l
  = (fst (shr_fexp prec emax m e l), snd (shr_fexp prec emax m e l) + d).
Proof.
  intros H1 H2. unfold shr_fexp. rewrite !fexp_normal by lia.
  replace (Zdigits2 m + (e + d) - 53 - (e + d)) with (Zdigits2 m + e - 53 - e) by lia.
  destruct (Zdigits2 m + e - 53 - e); cbn [SpecFloat.shr fst snd]; f_equal; lia.
Qed.

Lemma round_scale (s : bool) (mx ex : Z) (lx : location) (dmin d : Z) :
  round_margin mx ex lx dmin = true -> dmin <= d <= 0 ->
  binary_round_aux prec emax s mx (ex + d) lx
  = scale d (binary_round_aux prec emax s mx ex lx).
Proof.
  intros Hm Hd. unfold round_margin in Hm. cbv zeta in Hm.
  apply andb_prop in Hm. destruct Hm as [Hm H3].
  apply andb_prop in Hm. destruct Hm as [H1 H2].
  apply Z.leb_le in H1, H2, H3.
  unfold binary_round_aux.
  rewrite (shr_fexp_scale mx ex d lx) by lia.
  destruct (shr_fexp prec emax mx ex lx) as [mrs1 e1]. cbn [fst snd] in *.
  rewrite shr_fexp_scale by lia.
  destruct (shr_fexp prec emax
              (round_nearest_even (shr_m mrs1) (loc_of_shr_record mrs1)) e1 loc_Exact)
    as [mrs2 e2]. cbn [fst snd] in *.
  destruct (shr_m mrs2); cbn [scale]; try reflexivity.
  replace (e2 + d <=? emax - prec) with true
    by (symmetry; apply Z.leb_le; unfold emax, prec; lia).
  replace (e2 <=? emax - prec) with true
    by (symmetry; apply Z.leb_le; unfold emax, prec; lia).
  reflexivity.
Qed.

Lemma fmul_scale (x y : spec_float) (dmin d : Z) :
  fmul_margin x y dmin = true -> dmin <= d <= 0 ->
  fmul (scale d x) y = scale d (fmul x y).
Proof.
  intros Hm Hd. destruct x as [sx|sx| |sx mx ex], y as [sy|sy| |sy my ey];
    try reflexivity.
  cbn [scale fmul_margin] in *. unfold fmul, SFmul.
  replace (ex + d + ey) with (ex + ey + d) by lia.
  apply (round_scale _ _ _ _ dmin); assumption.
Qed.

Lemma fdiv_scale (x y : spec_float) (dmin d : Z) :
  fdiv_margin x y dmin = true -> dmin <= d <= 0 ->
  fdiv (scale d x) y = scale d (fdiv x y).
Proof.
  intros Hm Hd. destruct x as [sx|sx| |sx mx ex], y as [sy|sy| |sy my ey];
    try reflexivity.
  cbn [scale fdiv_margin] in *. unfold fdiv, SFdiv.
  assert (Hc : SFdiv_core_binary prec emax (Zpos mx) (ex + d) (Zpos my) ey
               = let '(mz, ez, lz) :=
                   SFdiv_core_binary prec emax (Zpos mx) ex (Zpos my) ey in
                 (mz, ez + d, lz)).
  { destruct (SFdiv_core_binary prec emax (Z.pos mx) ex (Z.pos my) ey)
      as [[mz ez] lz] eqn:E.
    apply andb_prop in Hm. destruct Hm as [H1 _]. apply Z.leb_le in H1.
    revert E. unfold SFdiv_core_binary. cbn [Zdigits2].
    rewrite !fexp_normal by lia.
    replace (Z.min (Z.pos (digits2_pos mx) + (ex + d)
                    - (Z.pos (digits2_pos my) + ey) - 53) (ex + d - ey))
      with (Z.min (Z.pos (digits2_pos mx) + ex
                   - (Z.pos (digits2_pos my) + ey) - 53) (ex - ey) + d) by lia.
    set (e' := Z.min (Z.pos (digits2_pos mx) + ex
                      - (Z.pos (digits2_pos my) + ey) - 53) (ex - ey)).
    replace (ex + d - ey - (e' + d)) with (ex - ey - e') by lia.
    destruct (Z.div_eucl _ _) as [q r]. intros E. injection E as <- <- <-.
    reflexivity. }
  rewrite Hc.
  destruct (SFdiv_core_binary prec emax (Z.pos mx) ex (Z.pos my) ey)
    as [[mz ez] lz].
  apply andb_prop in Hm. destruct Hm as [_ H2].
  apply (round_scale _ _ _ _ dmin); assumption.
Qed.

Lemma fleb_scale (x : spec_float) (bm : positive) (be d : Z) :
  fleb (S754_zero false) x = true ->
  fleb x (S754_finite false bm be) = true ->
  d <= 0 ->
  fleb (S754_zero false) (scale d x) = true /\
  fleb (scale d x) (S754_finite false bm be) = true.
Proof.
  intros H0 H1 Hd. destruct x as [sx|sx| |sx mx ex]; cbn [scale];
    try (split; assumption).
  destruct sx; [discriminate H0|]. split; [reflexivity|].
  revert H1. unfold fleb, SFleb, SFcompare.
  destruct (Z.compare_spec ex be) as [E|E|E], (Z.compare_spec (ex + d) be) as [E'|E'|E'];
    try reflexivity; try discriminate; try lia.
  replace d with 0 by lia. subst be. intros H. exact H.
Qed.

Lemma rh_check_all : all_upto 12 0 rh_check = true.
Proof. vm_compute. reflexivity. Qed.

Lemma fltb_scale (x : spec_float) (bm : positive) (be d : Z) :
  fleb (S754_zero false) x = true ->
  fltb x (S754_finite false bm be) = true ->
  d <= 0 ->
  fltb (scale d x) (S754_finite false bm be) = true.
Proof.
  intros H0 H1 Hd. destruct x as [sx|sx| |sx mx ex]; cbn [scale];
    try assumption.
  destruct sx; [discriminate H0|].
  revert H1. unfold fltb, SFltb, SFcompare.
  destruct (Z.compare_spec ex be) as [E|E|E],
           (Z.compare_spec (ex + d) be) as [E'|E'|E'];
    try reflexivity; try discriminate; try lia.
  replace d with 0 by lia. subst be. intros H. exact H.
Qed.

Lemma rh_check_at (m : Z) : 0 <= m < 4096 -> rh_check m = true.
Proof.
  intros Hm. apply (all_upto_spec 12 rh_check 0 rh_check_all m).
  change (2 ^ Z.of_nat 12) with 4096. lia.
Qed.

Lemma raw_fields (m e : Z) :
  0 <= m < 4096 -> 0 <= e < 16 ->
  band (e * 4096 + m) 0xFFF = m /\ shr (e * 4096 + m) 12 = e.
Proof.
  intros Hm He. unfold band, shr. split.
  - change 0xFFF with (Z.ones 12). rewrite Z.land_ones by lia.
    change (2 ^ 12) with 4096.
    rewrite Z.add_comm, Z_mod_plus_full. apply Z.mod_small. lia.
  - rewrite Z.shiftr_div_pow2 by lia. change (2 ^ 12) with 4096.
    rewrite Z.add_comm, Z_div_plus by lia. rewrite Z.div_small by lia. lia.
Qed.

(** The value of a pattern is that of the pattern with the same mantissa and
    the largest exponent, with the exponent lowered; so is its [rh]. *)
Lemma uflt16_rh_scale (m e : Z) :
  0 <= m < 4096 -> 0 <= e < 16 ->
  uflt16_value (e * 4096 + m) = scale (e - 15) (uflt16_value (15 * 4096 + m)) /\
  rh_value (e * 4096 + m) = scale (e - 15) (rh_value (15 * 4096 + m)).
Proof.
  intros Hm He. pose proof (rh_check_at m Hm) as Hc.
  unfold rh_check in Hc. cbv zeta in Hc.
  apply andb_prop in Hc. destruct Hc as [Hc _].
  apply andb_prop in Hc. destruct Hc as [Hc _].
  apply andb_prop in Hc. destruct Hc as [Hc _].
  unfold rh_value, uflt16_value.
  destruct (raw_fields m e Hm He) as [-> ->].
  destruct (raw_fields m 15 Hm ltac:(lia)) as [-> ->].
  destruct (fdiv (Z2SF m) (Z2SF 4096)) as [sx|sx| |sx cm ce] eqn:Ex;
    try discriminate.
  - rewrite !Math_pow2_normal by lia. split; reflexivity.
  - repeat (apply andb_prop in Hc; destruct Hc as [Hc ?]).
    apply Pos.eqb_eq in Hc.
    repeat match goal with H : (_ <=? _) = true |- _ => apply Z.leb_le in H end.
    rewrite !fmul_pow2_r by (try exact Hc; lia).
    replace (ce + (15 - 15)) with ce in * by lia.
    change (S754_finite sx cm (ce + (e - 15)))
      with (scale (e - 15) (S754_finite sx cm ce)).
    split; [reflexivity|].
    rewrite (fmul_scale _ _ (-15)) by (assumption || lia).
    rewrite (fdiv_scale _ _ (-15)) by (assumption || lia).
    reflexivity.
Qed.

(** Every 16-bit pattern gives a value in [[0, 1)] and an [rh] in
    [[0, rh_max]]. *)
Lemma rh_value_range (raw : Z) :
  0 <= raw < 65536 ->
  fleb (Z2SF 0) (uflt16_value raw) = true /\
  fltb (uflt16_value raw) (Z2SF 1) = true /\
  fleb (Z2SF 0) (rh_value raw) = true /\
  fleb (rh_value raw) rh_max = true.
Proof.
  intros Hraw.
  assert (Hdm : raw = (raw / 4096) * 4096 + raw mod 4096).
  { rewrite Z.mul_comm. apply Z.div_mod. lia. }
  assert (Hm : 0 <= raw mod 4096 < 4096) by (apply Z.mod_pos_bound; lia).
  assert (He : 0 <= raw / 4096 < 16).
  { split; [apply Z.div_pos; lia | apply Z.div_lt_upper_bound; lia]. }
  rewrite Hdm.
  destruct (uflt16_rh_scale _ _ Hm He) as [-> ->].
  pose proof (rh_check_at _ Hm) as Hc.
  unfold rh_check in Hc. cbv zeta in Hc.
  apply andb_prop in Hc. destruct Hc as [Hc Hu1].
  apply andb_prop in Hc. destruct Hc as [Hc Hu0].
  apply andb_prop in Hc. destruct Hc as [_ Hc]. unfold rh_in_range in Hc.
  cbv zeta in Hc. apply andb_prop in Hc. destruct Hc as [Hc0 Hc1].
  change (Z2SF 0) with (S754_zero false) in *.
  change (Z2SF 1) with (S754_finite false 4503599627370496 (-52)) in *.
  assert (Hmax : exists bm be, rh_max = S754_finite false bm be)
    by (eexists _, _; vm_compute; reflexivity).
  destruct Hmax as (bm & be & Hmax). rewrite Hmax in *.
  split; [|split].
  - apply (fleb_scale _ 4503599627370496 (-52));
      [assumption | | lia].
    revert Hu1. unfold fltb, fleb, SFltb, SFleb.
    destruct (SFcompare _ _) as [[| |]|]; congruence.
  - apply fltb_scale; [assumption | assumption | lia].
  - apply fleb_scale; [assumption | assumption | lia].
Qed.

Lemma DecodeUflt16_bytes (P : Parse) (b0 b1 : Z) :
  Parse_bytes P !! Parse_i P = Some b0 ->
  Parse_bytes P !! (Parse_i P + 1)%nat = Some b1 ->
  is_byte b0 -> is_byte b1 ->
  fst (DecodeUflt16 P) = uflt16_value (b0 * 256 + b1).
Proof.
  intros H0 H1 B0 B1. unfold DecodeUflt16, bind, ret.
  rewrite (DecodeU16_bytes P b0 b1) by assumption. cbn [fst ToInt32].
  rewrite wrap32_small; [reflexivity|].
  unfold is_byte in *. change (2 ^ 31) with 2147483648. lia.
Qed.

(** ** Effects of the field groups: keys added and bytes consumed *)

Lemma fields_v_effect : group_effect fields_v {["vBat"; "vBus"; "vSys"]} 6.
Proof.
  intros d P. unfold fields_v. parse_step. split; [|split].
  - f_equal. lia.
  - rewrite !dom_insert_L. set_solver.
  - frame_keys.
Qed.

Lemma fields_version_effect : group_effect fields_version {["version"]} 4.
Proof.
  intros d P. unfold fields_version. parse_step. split; [|split].
  - f_equal. lia.
  - rewrite !dom_insert_L. set_solver.
  - frame_keys.
Qed.

Lemma fields_boot_effect : group_effect fields_boot {["boot"]} 1.
Proof.
  intros d P. unfold fields_boot. parse_step. split; [|split].
  - reflexivity.
  - rewrite !dom_insert_L. set_solver.
  - frame_keys.
Qed.

Lemma fields_env_effect : group_effect fields_env {["t"; "rh"]} 4.
Proof.
  intros d P. unfold fields_env. parse_step. split; [|split].
  - f_equal. lia.
  - rewrite !dom_insert_L. set_solver.
  - frame_keys.
Qed.

Lemma fields_lux_effect : group_effect fields_lux {["lux"]} 3.
Proof.
  intros d P. unfold fields_lux, bind, ret, DecodeLux.
  destruct (DecodeSflt24 P) as [x P'] eqn:E.
  pose proof (DecodeSflt24_cursor P) as Hc. rewrite E in Hc. cbn in Hc. subst P'.
  cbn [fst snd]. split; [|split].
  - reflexivity.
  - rewrite !dom_insert_L. set_solver.
  - frame_keys.
Qed.

Lemma fields_tap_effect : group_effect fields_tap {["tap"]} 0.
Proof.
  intros d P. unfold fields_tap. parse_step. split; [|split].
  - destruct P as [b i]. cbn. f_equal. lia.
  - rewrite !dom_insert_L. set_solver.
  - frame_keys.
Qed.

Create HintDb group_effects discriminated.

#[global] Hint Resolve fields_v_effect fields_version_effect fields_boot_effect
  fields_env_effect fields_lux_effect fields_tap_effect : group_effects.

Lemma when_effect (c : bool) g K n :
  group_effect g K n ->
  group_effect (when c g) (if c then K else ∅) (if c then n else 0%nat).
Proof.
  intros Hg d P. destruct c; cbn [when].
  - apply Hg.
  - unfold ret. cbn. split; [|split].
    + destruct P. cbn. f_equal. lia.
    + set_solver.
    + reflexivity.
Qed.

Lemma when_cursor (c : bool) g K n d P :
  group_effect g K n ->
  when c g d P
    = (fst (when c g d P),
       mkParse (Parse_bytes P) (Parse_i P + (if c then n else 0%nat))).
Proof.
  intros Hg. destruct (when_effect c g K n Hg d P) as [H _].
  rewrite <- H. apply surjective_pairing.
Qed.

(** A field set by a guarded group survives the groups that run after it. *)
Lemma when_frame (c : bool) g K n (k : string) d P :
  group_effect g K n -> k ∉ K -> fst (when c g d P) !! k = d !! k.
Proof.
  intros Hg Hk. destruct (when_effect c g K n Hg d P) as (_ & _ & Hf).
  apply Hf. destruct c; set_solver.
Qed.

(** [UplinkBody] as the chain of its six guarded groups, each started at its
    own cursor. *)
Lemma UplinkBody_stages (P : Parse) :
  let flags := Parse_bytes P !! Parse_i P in
  let d1 := fst (when (flag_set flags 0x1) fields_v ∅ (at_v P)) in
  let d2 := fst (when (flag_set flags 0x2) fields_version d1 (at_version flags P)) in
  let d3 := fst (when (flag_set flags 0x4) fields_boot d2 (at_boot flags P)) in
  let d4 := fst (when (flag_set flags 0x8) fields_env d3 (at_env flags P)) in
  let d5 := fst (when (flag_set flags 0x10) fields_lux d4 (at_lux flags P)) in
  let d6 := fst (when (flag_set flags 0x20) fields_tap d5 (at_tap flags P)) in
  UplinkBody P = (d6, at_tap flags P).
Proof.
  intros flags d1 d2 d3 d4 d5 d6. unfold UplinkBody.
  unfold bind at 1. unfold next_byte at 1, peek, advance, bind at 1 2, ret at 1.
  cbn [fst snd Parse_bytes Parse_i]. rewrite Nat.add_0_r. fold flags. fold (at_v P).
  unfold bind, ret.
  rewrite (when_cursor (flag_set flags 0x1) _ _ _ ∅ (at_v P) fields_v_effect).
  fold d1. change (mkParse _ _) with (at_version flags P). cbv iota beta.
  rewrite (when_cursor (flag_set flags 0x2) _ _ _ d1 _ fields_version_effect).
  fold d2. change (mkParse _ _) with (at_boot flags P). cbv iota beta.
  rewrite (when_cursor (flag_set flags 0x4) _ _ _ d2 _ fields_boot_effect).
  fold d3. change (mkParse _ _) with (at_env flags P). cbv iota beta.
  rewrite (when_cursor (flag_set flags 0x8) _ _ _ d3 _ fields_env_effect).
  fold d4. change (mkParse _ _) with (at_lux flags P). cbv iota beta.
  rewrite (when_cursor (flag_set flags 0x10) _ _ _ d4 _ fields_lux_effect).
  fold d5. change (mkParse _ _) with (at_tap flags P). cbv iota beta.
  rewrite (when_cursor (flag_set flags 0x20) _ _ _ d5 _ fields_tap_effect).
  fold d6. f_equal. unfold at_tap. cbn [Parse_bytes Parse_i]. f_equal.
  destruct (flag_set flags 32); lia.
Qed.

Lemma UplinkBody_effect (P : Parse) :
  let flags := Parse_bytes P !! Parse_i P in
  exists d : record,
    UplinkBody P
      = (d, mkParse (Parse_bytes P) (Parse_i P + 1 + code_consumed flags)) /\
    dom d = code_fields flags.
Proof.
  intros flags. rewrite UplinkBody_stages. fold flags.
  eexists. split.
  - f_equal. unfold at_tap, at_lux, at_env, at_boot, at_version, at_v, code_consumed.
    cbn [Parse_i Parse_bytes]. f_equal. lia.
  - unfold code_fields.
    repeat match goal with
    | |- context [dom (fst (when ?c ?g ?d ?Q))] =>
        let H := fresh in
        pose proof (when_effect c g _ _ ltac:(eauto with group_effects) d Q)
          as (_ & H & _);
        rewrite H; clear H
    end.
    rewrite dom_empty_L.
    generalize (if flag_set flags 1 then {["vBat"; "vBus"; "vSys"]} else ∅ : gset string).
    generalize (if flag_set flags 2 then {["version"]} else ∅ : gset string).
    generalize (if flag_set flags 4 then {["boot"]} else ∅ : gset string).
    generalize (if flag_set flags 8 then {["t"; "rh"]} else ∅ : gset string).
    generalize (if flag_set flags 16 then {["lux"]} else ∅ : gset string).
    generalize (if flag_set flags 32 then {["tap"]} else ∅ : gset string).
    clear. intros. set_solver.
Qed.

(** Bits 6 and 7 of the bitmap select nothing. *)
Lemma selected_fields_low_bits (flags : Z) :
  selected_fields (Z.land flags 0x3F) = selected_fields flags.
Proof.
  unfold selected_fields. rewrite !Z.land_spec.
  change (Z.testbit 63 0) with true. change (Z.testbit 63 1) with true.
  change (Z.testbit 63 2) with true. change (Z.testbit 63 3) with true.
  change (Z.testbit 63 4) with true. change (Z.testbit 63 5) with true.
  rewrite !andb_true_r. reflexivity.
Qed.

Lemma code_fields_selected (flags : Z) :
  is_byte flags ->
  code_fields (Some flags) = selected_fields flags /\
  code_consumed (Some flags) = consumed_bytes flags.
Proof.
  intros Hb. destruct (flag_set_testbit flags Hb) as (H0 & H1 & H2 & H3 & H4 & H5).
  unfold code_fields, selected_fields, code_consumed, consumed_bytes.
  rewrite H0, H1, H2, H3, H4, H5. split; reflexivity.
Qed.

(** ** The dispatcher *)

Lemma Decoder_uplink (bytes : list Z) (port : Z) :
  port = 1 \/ port = 4 ->
  bytes !! 0%nat = Some 0x50 ->
  Decoder bytes port = Some (fst (UplinkBody (mkParse bytes 1))).
Proof.
  intros Hp Hf. unfold Decoder. rewrite Hf. cbn [elem_eq].
  destruct Hp; subst port; reflexivity.
Qed.

(** C5: selector 3 routes to the downlink-response decoder without looking at
    the buffer; a selector outside {1,3,4} gives the "not decodable" result
    whatever the buffer holds; for selectors 1 and 4 a first byte other than
    0x50 (or no first byte) gives "not decodable", and otherwise the uplink
    record decoder runs with the cursor just after the format tag. *)
Theorem Decoder_dispatch (bytes : list Z) (port : Z) :
  (port = 3 -> Decoder bytes port = Some (DecodeDownlinkResponse bytes)) /\
  (port <> 1 -> port <> 3 -> port <> 4 -> Decoder bytes port = None) /\
  (port = 1 \/ port = 4 -> bytes !! 0%nat <> Some 0x50 ->
   Decoder bytes port = None) /\
  (port = 1 \/ port = 4 -> bytes !! 0%nat = Some 0x50 ->
   Decoder bytes port = Some (fst (UplinkBody (mkParse bytes 1)))).
Proof.
  repeat split.
  - intros ->. reflexivity.
  - intros H1 H3 H4. unfold Decoder.
    apply Z.eqb_neq in H1, H3, H4. rewrite H1, H3, H4. reflexivity.
  - intros Hp Hf. unfold Decoder.
    assert (E : elem_eq (bytes !! 0%nat) 0x50 = false).
    { destruct (bytes !! 0%nat) as [u|]; cbn; [|reflexivity].
      apply Z.eqb_neq. intros ->. apply Hf. reflexivity. }
    rewrite E. destruct Hp; subst port; reflexivity.
  - apply Decoder_uplink.
Qed.

Lemma Decoder_dispatch_witness :
  Decoder [0x50; 0x00] 2 = None /\
  Decoder [0x51; 0x00] 1 = None /\
  Decoder [0x50; 0x00] 4 = Some (fst (UplinkBody (mkParse [0x50; 0x00] 1))).
Proof.
  split; [|split].
  - apply (proj1 (proj2 (Decoder_dispatch [0x50; 0x00] 2))); lia.
  - apply (proj1 (proj2 (proj2 (Decoder_dispatch [0x51; 0x00] 1))));
      [lia | discriminate].
  - apply (proj2 (proj2 (proj2 (Decoder_dispatch [0x50; 0x00] 4))));
      [lia | reflexivity].
Defined.

(** ** Uplink records *)

(** C4: with the format tag 0x50 and enough bytes for every selected group,
    the record holds exactly the fields whose bitmap bit is set (bits 6 and 7
    select nothing), and a group whose bit is clear moves the cursor by zero
    bytes: the cursor ends after the tag, the bitmap and the bytes of the
    selected groups of bits 0 to 4.  In particular bitmap 0x08 followed by
    exactly four bytes gives [t] and [rh] and ends at offset 6, the end of the
    buffer. *)
Theorem uplink_fields_exact (bytes : list Z) (port flags : Z) :
  port = 1 \/ port = 4 ->
  bytes !! 0%nat = Some 0x50 ->
  bytes !! 1%nat = Some flags ->
  is_byte flags ->
  (2 + needed_bytes flags <= length bytes)%nat ->
  exists d : record,
    Decoder bytes port = Some d /\
    dom d = selected_fields flags /\
    dom d = selected_fields (Z.land flags 0x3F) /\
    Decoder_consumed bytes = (2 + consumed_bytes flags)%nat /\
    (Decoder_consumed bytes <= length bytes)%nat /\
    (flags = 0x08 -> length bytes = 6%nat ->
     dom d = {["t"; "rh"]} /\ Decoder_consumed bytes = length bytes).
Proof.
  intros Hp Hf Hfl Hb Hlen.
  destruct (UplinkBody_effect (mkParse bytes 1)) as (d & Hd & Hdom).
  cbn [Parse_bytes Parse_i] in Hd, Hdom. rewrite Hfl in Hd, Hdom.
  destruct (code_fields_selected flags Hb) as [Hs Hc]. rewrite Hs in Hdom.
  rewrite Hc in Hd.
  exists d. rewrite (Decoder_uplink bytes port Hp Hf). unfold Decoder_consumed.
  rewrite Hd. cbn [fst snd Parse_i]. repeat split; try assumption.
  - rewrite Hdom. symmetry. apply selected_fields_low_bits.
  - revert Hlen. unfold needed_bytes, consumed_bytes. lia.
  - subst flags. rewrite Hdom. unfold selected_fields. cbn. set_solver.
  - subst flags. cbn. congruence.
Qed.

Lemma uplink_fields_exact_witness :
  exists d : record,
    Decoder [0x50; 0x08; 0x19; 0x00; 0xF8; 0x00] 1 = Some d /\
    dom d = selected_fields 0x08 /\
    dom d = selected_fields (Z.land 0x08 0x3F) /\
    Decoder_consumed [0x50; 0x08; 0x19; 0x00; 0xF8; 0x00]
      = (2 + consumed_bytes 0x08)%nat /\
    le (Decoder_consumed [0x50; 0x08; 0x19; 0x00; 0xF8; 0x00]) 6 /\
    (0x08 = 0x08 -> length [0x50; 0x08; 0x19; 0x00; 0xF8; 0x00] = 6%nat ->
     dom d = {["t"; "rh"]} /\
     Decoder_consumed [0x50; 0x08; 0x19; 0x00; 0xF8; 0x00]
       = length [0x50; 0x08; 0x19; 0x00; 0xF8; 0x00]).
Proof.
  apply (uplink_fields_exact [0x50; 0x08; 0x19; 0x00; 0xF8; 0x00] 1 0x08).
  - left; reflexivity.
  - reflexivity.
  - reflexivity.
  - unfold is_byte; lia.
  - cbn; lia.
Defined.

(** C1 (as the script behaves): an uplink decode with tag 0x50 never fails
    with a buffer underrun.  Whatever the length of the buffer it returns a
    record, whose fields are exactly those selected by the bitmap; the reads
    past the end of the buffer yield [undefined], which the 16-bit codec turns
    into NaN.  So with bit 0 set and fewer than two bytes after the bitmap the
    record still holds [vBat], with the value NaN. *)
Theorem uplink_no_underrun (bytes : list Z) (port : Z) :
  port = 1 \/ port = 4 ->
  bytes !! 0%nat = Some 0x50 ->
  exists d : record,
    Decoder bytes port = Some d /\
    (forall flags, bytes !! 1%nat = Some flags -> is_byte flags ->
       dom d = selected_fields flags) /\
    (forall P, (length (Parse_bytes P) <= Parse_i P + 1)%nat ->
       fst (DecodeU16 P) = JNaN) /\
    (flag_set (bytes !! 1%nat) 0x1 = true -> (length bytes <= 3)%nat ->
       d !! "vBat" = Some (JSNumber S754_nan)).
Proof.
  intros Hp Hf.
  rewrite (Decoder_uplink bytes port Hp Hf).
  eexists. split; [reflexivity|]. split; [|split].
  - intros flags Hfl Hb.
    destruct (UplinkBody_effect (mkParse bytes 1)) as (d & Hd & Hdom).
    cbn [Parse_bytes Parse_i] in Hd, Hdom. rewrite Hfl in Hdom.
    rewrite Hd. cbn [fst].
    rewrite Hdom. apply (code_fields_selected flags Hb).
  - intros P HP. rewrite (DecodeU16_past_end P HP). reflexivity.
  - intros Hbit Hlen. rewrite UplinkBody_stages. cbn [fst Parse_bytes Parse_i].
    rewrite (when_frame _ _ _ _ "vBat" _ _ fields_tap_effect) by set_solver.
    rewrite (when_frame _ _ _ _ "vBat" _ _ fields_lux_effect) by set_solver.
    rewrite (when_frame _ _ _ _ "vBat" _ _ fields_env_effect) by set_solver.
    rewrite (when_frame _ _ _ _ "vBat" _ _ fields_boot_effect) by set_solver.
    rewrite (when_frame _ _ _ _ "vBat" _ _ fields_version_effect) by set_solver.
    rewrite Hbit. cbn [when]. unfold fields_v, bind, ret.
    destruct (DecodeV (at_v (mkParse bytes 1))) as [vBat P2] eqn:E1.
    destruct (DecodeV P2) as [vBus P3].
    destruct (DecodeV P3) as [vSys P4]. cbn [fst].
    rewrite lookup_insert_ne by done. rewrite lookup_insert_ne by done.
    rewrite lookup_insert_eq.
    pose proof (DecodeV_past_end (at_v (mkParse bytes 1))) as HV.
    rewrite E1 in HV. cbn [fst at_v Parse_bytes Parse_i] in HV.
    rewrite HV by lia. reflexivity.
Qed.

Lemma uplink_no_underrun_witness :
  exists d : record,
    Decoder [0x50; 0x01; 0x40] 1 = Some d /\
    dom d = selected_fields 0x01 /\
    d !! "vBat" = Some (JSNumber S754_nan).
Proof.
  destruct (uplink_no_underrun [0x50; 0x01; 0x40] 1) as (d & Hd & Hdom & _ & Hv).
  - left; reflexivity.
  - reflexivity.
  - exists d. split; [exact Hd|]. split.
    + apply Hdom; [reflexivity | unfold is_byte; lia].
    + apply Hv; [reflexivity | cbn; lia].
Defined.

(** C1, the claim as stated, fails: the buffer [50 08] selects [t] and [rh]
    and holds none of their four bytes, yet the decode returns a record, with
    [t] NaN and [rh] zero, both derived from reads past the end. *)
Lemma underrun_counterexample :
  (length [0x50; 0x08] < 2 + needed_bytes 0x08)%nat /\
  Decoder [0x50; 0x08] 1
    = Some (<["rh" := JSNumber (S754_zero false)]>
              (<["t" := JSNumber S754_nan]> ∅)) /\
  Decoder [0x50; 0x08] 1 <> None.
Proof.
  split; [cbn; lia|]. split; [vm_compute; reflexivity | discriminate].
Qed.

(** C9: when bitmap bit 5 is set, the tap field is read as the one byte under
    the cursor and the cursor is not advanced: the parse state after the tap
    group is the state before it, so the offset is unchanged; the whole
    decode therefore ends at the offset where the tap byte was read. *)
Theorem tap_leaves_cursor (flags : option Z) (decoded : record) (P : Parse) :
  flag_set flags 0x20 = true ->
  snd (when (flag_set flags 0x20) fields_tap decoded P) = P /\
  Parse_i (snd (when (flag_set flags 0x20) fields_tap decoded P)) = Parse_i P /\
  fst (when (flag_set flags 0x20) fields_tap decoded P)
    = <["tap" := of_elem (Parse_bytes P !! Parse_i P)]> decoded /\
  (forall bytes, bytes !! 1%nat = flags ->
     snd (UplinkBody (mkParse bytes 1)) = at_tap flags (mkParse bytes 1)).
Proof.
  intros H. rewrite H. cbn [when]. unfold fields_tap, peek, bind, ret.
  cbn [fst snd]. rewrite Nat.add_0_r. repeat split.
  intros bytes Hb. rewrite UplinkBody_stages. cbn [snd Parse_bytes Parse_i].
  rewrite Hb. reflexivity.
Qed.

Lemma tap_leaves_cursor_witness :
  Parse_i (snd (when (flag_set (Some 0x20) 0x20) fields_tap ∅
                  (mkParse [0x50; 0x20; 9] 2))) = 2%nat.
Proof.
  apply (tap_leaves_cursor (Some 0x20) ∅ (mkParse [0x50; 0x20; 9] 2)).
  reflexivity.
Defined.

(** C10: with bitmap bit 3 set and enough bytes, the decoded [rh] is
    [u * 100 / 65535] for a value [u] of [DecodeUflt16] that lies in [[0, 1)],
    and it is a double between 0 and [100 * (4095 / 4096) / 65535] (computed
    in double arithmetic), a bound whose exact value lies between 0.00152 and
    0.00153: far below the nominal range of 0 to 100 percent. *)
Theorem rh_far_below_percent (bytes : list Z) (port flags : Z) (d : record) :
  port = 1 \/ port = 4 ->
  bytes !! 0%nat = Some 0x50 ->
  bytes !! 1%nat = Some flags ->
  Forall is_byte bytes ->
  Z.testbit flags 3 = true ->
  (2 + needed_bytes flags <= length bytes)%nat ->
  Decoder bytes port = Some d ->
  (exists u rh,
     d !! "rh" = Some (JSNumber rh) /\
     rh = fdiv (fmul u (Z2SF 100)) (Z2SF 65535) /\
     fleb (Z2SF 0) u = true /\ fltb u (Z2SF 1) = true /\
     fleb (Z2SF 0) rh = true /\ fleb rh rh_max = true) /\
  (exists q, SF2Q rh_max = Some q /\
             (152 # 100000 < q)%Q /\ (q < 153 # 100000)%Q).
Proof.
  intros Hp Hf Hfl Hall Hbit Hlen Hd.
  split.
  2:{ eexists. split; [vm_compute; reflexivity|]. split; reflexivity. }
  rewrite (Decoder_uplink bytes port Hp Hf) in Hd. injection Hd as <-.
  assert (Hb : is_byte flags).
  { exact (proj1 (Forall_lookup _ _) Hall 1%nat flags Hfl). }
  destruct (flag_set_testbit flags Hb) as (F0 & F1 & F2 & F3 & F4 & F5).
  rewrite UplinkBody_stages. cbn [fst Parse_bytes Parse_i]. rewrite Hfl.
  rewrite (when_frame _ _ _ _ "rh" _ _ fields_tap_effect) by set_solver.
  rewrite (when_frame _ _ _ _ "rh" _ _ fields_lux_effect) by set_solver.
  rewrite F3, Hbit. cbn [when].
  set (Q := at_env (Some flags) (mkParse bytes 1)).
  assert (HQ : (Parse_i Q + 4 <= length bytes)%nat /\ Parse_bytes Q = bytes).
  { subst Q. unfold at_env, at_boot, at_version, at_v. cbn [Parse_i Parse_bytes].
    rewrite F0, F1, F2. unfold needed_bytes in Hlen. rewrite Hbit in Hlen.
    split; [|reflexivity].
    destruct (Z.testbit flags 0), (Z.testbit flags 1), (Z.testbit flags 2),
      (Z.testbit flags 4), (Z.testbit flags 5); lia. }
  destruct HQ as [HQ1 HQ2].
  destruct (lookup_byte bytes (Parse_i Q + 2) Hall) as (b2 & Hb2 & B2); [lia|].
  destruct (lookup_byte bytes (Parse_i Q + 2 + 1) Hall) as (b3 & Hb3 & B3); [lia|].
  generalize (fst (when (flag_set (Some flags) 4) fields_boot
    (fst (when (flag_set (Some flags) 2) fields_version
      (fst (when (flag_set (Some flags) 1) fields_v ∅ (at_v (mkParse bytes 1))))
      (at_version (Some flags) (mkParse bytes 1))))
    (at_boot (Some flags) (mkParse bytes 1)))).
  intros d3. unfold fields_env, bind, ret.
  destruct (DecodeI16 Q) as [t Q2] eqn:E1.
  assert (HQ2' : Q2 = mkParse bytes (Parse_i Q + 2)).
  { revert E1. unfold DecodeI16, DecodeU16, peek, advance, bind, ret.
    cbn [fst snd]. rewrite HQ2. intros E. injection E as _ <-. reflexivity. }
  subst Q2.
  pose proof (DecodeUflt16_bytes (mkParse bytes (Parse_i Q + 2)) b2 b3) as HU.
  cbn [Parse_bytes Parse_i] in HU. specialize (HU Hb2 Hb3 B2 B3).
  destruct (DecodeUflt16 (mkParse bytes (Parse_i Q + 2))) as [u Q3].
  cbn [fst] in HU |- *. subst u.
  rewrite lookup_insert_eq.
  destruct (rh_value_range (b2 * 256 + b3)) as (U0 & U1 & R0 & R1);
    [unfold is_byte in *; lia|].
  exists (uflt16_value (b2 * 256 + b3)), (rh_value (b2 * 256 + b3)).
  repeat split; assumption.
Qed.

Lemma rh_far_below_percent_witness :
  exists u rh,
    fst (UplinkBody (mkParse [0x50; 0x08; 0x19; 0x00; 0xFF; 0xFF] 1)) !! "rh"
      = Some (JSNumber rh) /\
    rh = fdiv (fmul u (Z2SF 100)) (Z2SF 65535) /\
    fleb (Z2SF 0) u = true /\ fltb u (Z2SF 1) = true /\
    fleb (Z2SF 0) rh = true /\ fleb rh rh_max = true.
Proof.
  refine (proj1 (rh_far_below_percent [0x50; 0x08; 0x19; 0x00; 0xFF; 0xFF] 1 0x08 _
            _ _ _ _ _ _ _)).
  - left; reflexivity.
  - reflexivity.
  - reflexivity.
  - repeat constructor; unfold is_byte; lia.
  - reflexivity.
  - cbn; lia.
  - reflexivity.
Defined.

(** ** Downlink responses *)

Lemma set_Response_lookup (b : option Z) (d : record) :
  d !! "Response" = None ->
  set_Response b d !! "Response" = status_text b /\
  (forall k, k <> "Response" -> set_Response b d !! k = d !! k).
Proof.
  intros Hd. unfold set_Response, status_text.
  destruct (elem_eq b 0); [|destruct (elem_eq b 1); [|destruct (elem_eq b 2)]];
    (split; [try apply lookup_insert_eq; assumption
            | intros k Hk; rewrite ?lookup_insert_ne by congruence; reflexivity]).
Qed.

Lemma set_Rev_frame (b : option Z) (d : record) (k : string) :
  k <> "Rev" -> set_Rev b d !! k = d !! k.
Proof.
  intros Hk. unfold set_Rev.
  repeat match goal with |- context [if ?c then _ else _] => destruct c end;
    rewrite ?lookup_insert_ne by congruence; reflexivity.
Qed.

Lemma response_status_lookup (name : string) (P : Parse) :
  let d := fst (response_status name ∅ P) in
  d !! "ResponseType" = Some (JSString name) /\
  d !! "Response" = status_text (Parse_bytes P !! Parse_i P).
Proof.
  unfold response_status. parse_step. rewrite !Nat.add_0_r.
  destruct (set_Response_lookup (Parse_bytes P !! Parse_i P)
              (<["ResponseType" := JSString name]> ∅)) as [H1 H2].
  { rewrite lookup_insert_ne by done. apply lookup_empty. }
  split; [|exact H1]. rewrite H2 by done. apply lookup_insert_eq.
Qed.

Lemma response_interval_lookup (P : Parse) :
  let d := fst (response_interval ∅ P) in
  d !! "ResponseType" = Some (JSString "Uplink Interval") /\
  d !! "Response" = status_text (Parse_bytes P !! Parse_i P).
Proof.
  unfold response_interval. parse_step. rewrite !Nat.add_0_r.
  destruct (set_Response_lookup (Parse_bytes P !! Parse_i P)
              (<["ResponseType" := JSString "Uplink Interval"]> ∅)) as [H1 H2].
  { rewrite lookup_insert_ne by done. apply lookup_empty. }
  rewrite !lookup_insert_ne by done.
  split; [|exact H1]. rewrite H2 by done. apply lookup_insert_eq.
Qed.

Lemma response_version_lookup (P : Parse) :
  let d := fst (response_version ∅ P) in
  d !! "ResponseType" = Some (JSString "Device Version") /\
  d !! "Response" = status_text (Parse_bytes P !! Parse_i P).
Proof.
  unfold response_version. parse_step. rewrite !Nat.add_0_r.
  destruct (set_Response_lookup (Parse_bytes P !! Parse_i P)
              (<["ResponseType" := JSString "Device Version"]> ∅)) as [H1 H2].
  { rewrite lookup_insert_ne by done. apply lookup_empty. }
  repeat match goal with |- context [if ?c then _ else _] => destruct c end;
    cbn [fst]; rewrite ?set_Rev_frame by done; rewrite ?lookup_insert_ne by done;
    (split; [rewrite H2 by done; apply lookup_insert_eq | exact H1]).
Qed.

(** The command byte decides the shape of the record. *)
Lemma DownlinkBody_cases (bytes : list Z) :
  let P1 := mkParse bytes 1 in
  let command := bytes !! 0%nat in
  DecodeDownlinkResponse bytes =
    if elem_eq command 0x01 then ∅
    else if elem_eq command 0x02 then ∅
    else if elem_eq command 0x03 then fst (response_version ∅ P1)
    else if elem_eq command 0x04 then fst (response_status "AppEUI Set" ∅ P1)
    else if elem_eq command 0x05 then fst (response_status "AppKey set" ∅ P1)
    else if elem_eq command 0x06 then fst (response_status "Rejoin" ∅ P1)
    else if elem_eq command 0x07 then fst (response_interval ∅ P1)
    else ∅.
Proof.
  intros P1 command. unfold DecodeDownlinkResponse, DownlinkBody.
  unfold bind at 1. unfold next_byte, peek, advance, bind, ret.
  cbn [fst snd Parse_bytes Parse_i Nat.add]. fold command. fold P1.
  repeat match goal with |- context [if ?c then _ else _] => destruct c end;
    reflexivity.
Qed.

(** C2 (as the script behaves): a downlink-response buffer whose first byte
    is not one of 0x01..0x07 (or that has no first byte) does not fail: the
    decode returns the empty record, the very result it returns for the
    recognised commands 0x01 and 0x02. *)
Theorem unrecognized_command_empty (bytes : list Z) :
  (forall c, 1 <= c <= 7 -> bytes !! 0%nat <> Some c) ->
  Decoder bytes 3 = Some ∅ /\
  Decoder bytes 3 = Decoder [0x01] 3 /\
  Decoder bytes 3 = Decoder [0x02] 3.
Proof.
  intros H.
  assert (E : forall c, 1 <= c <= 7 -> elem_eq (bytes !! 0%nat) c = false).
  { intros c Hc. destruct (bytes !! 0%nat) as [u|] eqn:Eu; cbn; [|reflexivity].
    apply Z.eqb_neq. intros ->. apply (H c Hc). reflexivity. }
  assert (Hd : Decoder bytes 3 = Some ∅).
  { unfold Decoder. cbn [Z.eqb Pos.eqb]. rewrite DownlinkBody_cases. cbv zeta.
    rewrite !E by lia. reflexivity. }
  rewrite Hd. repeat split; reflexivity.
Qed.

Lemma unrecognized_command_empty_witness :
  Decoder [0x08; 0x00] 3 = Some ∅ /\
  Decoder [0x08; 0x00] 3 = Decoder [0x01] 3 /\
  Decoder [0x08; 0x00] 3 = Decoder [0x02] 3.
Proof.
  apply (unrecognized_command_empty [0x08; 0x00]).
  intros c Hc. cbn. intros E. injection E. lia.
Defined.

(** C2, the claim as stated, fails: command code 0x08 is outside the table
    and yet the decode succeeds, with the record it returns for command
    0x01. *)
Lemma unrecognized_command_counterexample :
  Decoder [0x08] 3 <> None /\ Decoder [0x08] 3 = Decoder [0x01] 3.
Proof.
  split; [discriminate | reflexivity].
Qed.

(** C7 (as the script behaves): for the commands 0x03..0x07 the record holds
    [ResponseType], and it holds [Response] exactly when the status byte is
    0, 1 or 2, with the text "Success", "Invalid Length" or "Failure"; for the
    commands 0x01 and 0x02 the record is empty and holds no [ResponseType]. *)
Theorem recognized_command_fields (bytes : list Z) (command : Z) :
  bytes !! 0%nat = Some command ->
  1 <= command <= 7 ->
  let d := DecodeDownlinkResponse bytes in
  (3 <= command ->
     d !! "ResponseType" = Some (JSString (response_type_name command)) /\
     d !! "Response" = status_text (bytes !! 1%nat)) /\
  (command <= 2 -> d = ∅).
Proof.
  intros Hc Hr d. subst d. rewrite DownlinkBody_cases. cbv zeta. rewrite Hc.
  cbn [elem_eq].
  assert (Hcases : command = 1 \/ command = 2 \/ command = 3 \/ command = 4 \/
                   command = 5 \/ command = 6 \/ command = 7) by lia.
  destruct Hcases as [-> | [-> | [-> | [-> | [-> | [-> | ->]]]]]];
    cbn [Z.eqb Pos.eqb]; (split; [intros H3 | intros H2]); try lia;
    try reflexivity.
  - apply (response_version_lookup (mkParse bytes 1)).
  - apply (response_status_lookup "AppEUI Set" (mkParse bytes 1)).
  - apply (response_status_lookup "AppKey set" (mkParse bytes 1)).
  - apply (response_status_lookup "Rejoin" (mkParse bytes 1)).
  - apply (response_interval_lookup (mkParse bytes 1)).
Qed.

Lemma recognized_command_fields_witness :
  DecodeDownlinkResponse [0x07; 0x01; 0; 0; 0; 60] !! "ResponseType"
    = Some (JSString "Uplink Interval") /\
  DecodeDownlinkResponse [0x07; 0x01; 0; 0; 0; 60] !! "Response"
    = Some (JSString "Invalid Length").
Proof.
  apply (recognized_command_fields [0x07; 0x01; 0; 0; 0; 60] 0x07);
    [reflexivity | lia | lia].
Defined.

(** C7, the claim as stated, fails: 0x01 is a recognised command and its
    record holds no [ResponseType]. *)
Lemma recognized_command_counterexample :
  DecodeDownlinkResponse [0x01] !! "ResponseType" = None.
Proof. reflexivity. Qed.

(** ** Reduced-precision floats *)

(** C3: the value of [DecodeSflt24] on any three bytes, by the fields of the
    24-bit pattern: sign bit [s] (bit 23), exponent field [E] (bits 22..16)
    and mantissa field [M] (bits 15..0).  With [E = 0x7F] the result is the
    infinity of sign [s] when [M = 0] and NaN otherwise; with [0 < E < 0x7F]
    it is the double whose exact value is
    [sign * ((M + 0x10000) / 0x10000) * 2^(E - 63)]; with [E = 0] it is the
    double whose exact value is [sign * (M / 0x10000) * 2^(1 - 63)]. *)
Theorem DecodeSflt24_value (P : Parse) (b0 b1 b2 : Z) :
  Parse_bytes P !! Parse_i P = Some b0 ->
  Parse_bytes P !! (Parse_i P + 1)%nat = Some b1 ->
  Parse_bytes P !! (Parse_i P + 2)%nat = Some b2 ->
  is_byte b0 -> is_byte b1 -> is_byte b2 ->
  let raw := b0 * 65536 + b1 * 256 + b2 in
  let s := Z.testbit raw 23 in
  let E := (raw / 2 ^ 16) mod 2 ^ 7 in
  let M := raw mod 2 ^ 16 in
  let sign := (if s then -1 else 1)%Q in
  let r := fst (DecodeSflt24 P) in
  (E = 0x7F -> M = 0 -> r = S754_infinity s) /\
  (E = 0x7F -> M <> 0 -> r = S754_nan) /\
  (0 < E < 0x7F ->
   exists q, SF2Q r = Some q /\
     (q == sign * ((inject_Z M + 65536) / 65536) * 2 ^ (E - 63))%Q) /\
  (E = 0 ->
   exists q, SF2Q r = Some q /\
     (q == sign * (inject_Z M / 65536) * 2 ^ (1 - 63))%Q).
Proof.
  intros H0 H1 H2 B0 B1 B2 raw s E M sign r.
  assert (Hraw : 0 <= raw < 2 ^ 24).
  { unfold is_byte in *. change (2 ^ 24) with 16777216. subst raw. lia. }
  assert (Hr : r = sflt24_value raw).
  { subst r. rewrite DecodeSflt24_unfold.
    rewrite (DecodeU24_bytes P b0 b1 b2) by assumption. cbn [fst ToInt32].
    fold raw. rewrite wrap32_small; [reflexivity|].
    change (2 ^ 24) with 16777216 in Hraw. change (2 ^ 31) with 2147483648. lia. }
  destruct (sflt24_fields raw Hraw) as (Hs & He & Hm).
  fold s in Hs. fold E in He. fold M in Hm.
  assert (HM : 0 <= M < 2 ^ 16) by (subst M; apply Z.mod_pos_bound; lia).
  assert (HE : 0 <= E < 2 ^ 7) by (subst E; apply Z.mod_pos_bound; lia).
  change (2 ^ 16) with 65536 in HM. change (2 ^ 7) with 128 in HE.
  rewrite Hr. unfold sflt24_value. rewrite Hs, He, Hm.
  split; [|split; [|split]].
  - intros HE7 HM0. rewrite HE7, HM0. reflexivity.
  - intros HE7 HM0. rewrite HE7. cbn [Z.eqb Pos.eqb].
    apply Z.eqb_neq in HM0. rewrite HM0. reflexivity.
  - intros HEn.
    replace (E =? 127) with false by (symmetry; apply Z.eqb_neq; lia).
    replace (E =? 0) with false by (symmetry; apply Z.eqb_neq; lia).
    cbn [negb].
    destruct (sflt24_magnitude (M + 65536) (E - 63)) as (m & e & Hx & Hq);
      [change (2 ^ 17) with 131072; lia | lia |].
    rewrite Hx.
    destruct (signed_value s m e _ Hq) as (q' & Hq1 & Hq2).
    exists q'. split; [exact Hq1|]. rewrite Hq2. subst sign.
    rewrite inject_Z_plus. change (inject_Z 65536) with 65536%Q. ring.
  - intros HE0. rewrite HE0. cbn [Z.eqb negb].
    destruct (Z.eq_dec M 0) as [HM0|HM0].
    + rewrite HM0. change (Z2SF 0) with (S754_zero false).
      unfold fdiv, SFdiv.
      change (Z2SF 65536) with (S754_finite false 4503599627370496 (-36)).
      cbn [xorb]. rewrite Math_pow2_normal by lia. unfold fmul, SFmul.
      cbn [xorb]. exists 0%Q. split.
      * destruct s; reflexivity.
      * subst sign. destruct s; reflexivity.
    + destruct (sflt24_magnitude M (1 - 63)) as (m & e & Hx & Hq);
        [change (2 ^ 17) with 131072; lia | lia |].
      rewrite Hx.
      destruct (signed_value s m e _ Hq) as (q' & Hq1 & Hq2).
      exists q'. split; [exact Hq1|]. rewrite Hq2. subst sign. ring.
Qed.

Lemma DecodeSflt24_value_witness :
  exists q, SF2Q (fst (DecodeSflt24 (mkParse [0x50; 0xC5; 0x80; 0x00] 1))) = Some q /\
    (q == -1 * ((inject_Z 0x8000 + 65536) / 65536) * 2 ^ (0x45 - 63))%Q.
Proof.
  refine (proj1 (proj2 (proj2
    (DecodeSflt24_value (mkParse [0x50; 0xC5; 0x80; 0x00] 1) 0xC5 0x80 0x00
       _ _ _ _ _ _))) _);
    try reflexivity; unfold is_byte; try lia.
  vm_compute. split; reflexivity.
Defined.

(** C8: [DecodeSflt16] at a cursor positioned on the byte pattern [80 00]
    returns negative zero, which is neither positive zero nor NaN, and moves
    the cursor by two. *)
Theorem DecodeSflt16_negative_zero (P : Parse) :
  Parse_bytes P !! Parse_i P = Some 0x80 ->
  Parse_bytes P !! (Parse_i P + 1)%nat = Some 0x00 ->
  DecodeSflt16 P = (S754_zero true, mkParse (Parse_bytes P) (Parse_i P + 2)) /\
  fst (DecodeSflt16 P) <> S754_zero false /\
  fst (DecodeSflt16 P) <> S754_nan.
Proof.
  intros H0 H1.
  assert (E : DecodeSflt16 P
              = (S754_zero true, mkParse (Parse_bytes P) (Parse_i P + 2))).
  { unfold DecodeSflt16. parse_step. rewrite Nat.add_0_r, H0, H1. reflexivity. }
  rewrite E. repeat split; discriminate.
Qed.

Lemma DecodeSflt16_negative_zero_witness :
  DecodeSflt16 (mkParse [0x50; 0x80; 0x00] 1)
    = (S754_zero true, mkParse [0x50; 0x80; 0x00] 3).
Proof.
  apply (DecodeSflt16_negative_zero (mkParse [0x50; 0x80; 0x00] 1));
    reflexivity.
Defined.

(** ** Heat index *)

#[local] Set Warnings "-inexact-float".

(** The decimal constants of the heat index, as [dec] gives them, are the
    doubles denoted by the literals of the script. *)
Lemma decimal_literals :
  dec 5 1 = Prim2SF 0.5 /\ dec 12 1 = Prim2SF 1.2 /\
  dec 94 3 = Prim2SF 0.094 /\ dec (-42379) 3 = Prim2SF (-42.379) /\
  dec 204901523 8 = Prim2SF 2.04901523 /\
  dec 1014333127 8 = Prim2SF 10.14333127 /\
  dec (-22475541) 8 = Prim2SF (-0.22475541) /\
  dec (-683783) 8 = Prim2SF (-0.00683783) /\
  dec (-5481717) 8 = Prim2SF (-0.05481717) /\
  dec 122874 8 = Prim2SF 0.00122874 /\
  dec 85282 8 = Prim2SF 0.00085282 /\
  dec (-199) 8 = Prim2SF (-0.00000199) /\
  dec 1835 1 = Prim2SF 183.5 /\
  Z2SF 65535 = Prim2SF 65535.0 /\ Z2SF 4096 = Prim2SF 4096.0.
Proof. vm_compute. repeat split. Qed.

#[local] Set Warnings "inexact-float".

(** C6 (as the script computes): at t = 90 and rh = 50 the simple estimate
    is about 91.05; added to t it is not below 160 (the average is not below
    80), so the simple-formula branch is not taken.  The result is the
    regression polynomial with a zero adjustment, and its exact value lies
    between 94.59 and 94.60. *)
Theorem heat_index_90_50 :
  let t := Z2SF 90 in
  let rh := Z2SF 50 in
  fltb (fadd (tHeatEasy t rh) t) (Z2SF 160) = false /\
  (exists q, SF2Q (tHeatEasy t rh) = Some q /\
             (9104 # 100 < q)%Q /\ (q < 9106 # 100)%Q) /\
  tAdjust t rh = Z2SF 0 /\
  CalculateHeatIndex t rh = Some (fadd (tHeatHard t rh) (tAdjust t rh)) /\
  CalculateHeatIndex t rh <> Some (tHeatEasy t rh) /\
  (exists r q, CalculateHeatIndex t rh = Some r /\ SF2Q r = Some q /\
               (9459 # 100 < q)%Q /\ (q < 9460 # 100)%Q).
Proof.
  cbv zeta. split; [vm_compute; reflexivity|].
  split.
  { eexists. split; [vm_compute; reflexivity|]. split; reflexivity. }
  split; [vm_compute; reflexivity|].
  split; [vm_compute; reflexivity|].
  split; [vm_compute; discriminate|].
  eexists _, _. split; [vm_compute; reflexivity|].
  split; [vm_compute; reflexivity|]. split; reflexivity.
Qed.

(** C6, the claim as stated, fails: the value returned at t = 90, rh = 50 is
    not the simple-formula estimate. *)
Lemma heat_index_counterexample :
  CalculateHeatIndex (Z2SF 90) (Z2SF 50) <> Some (tHeatEasy (Z2SF 90) (Z2SF 50)) /\
  fltb (fadd (tHeatEasy (Z2SF 90) (Z2SF 50)) (Z2SF 90)) (Z2SF 160) = false.
Proof.
  split; [vm_compute; discriminate | vm_compute; reflexivity].
Qed.
